(** * Slot Car Tire Search: the filter pipeline of [App.py]

    A shallow embedding of the APPLY FILTERS block of [App.py]
    (lines 87-108) together with the part of pandas and of Python's [re]
    module that the block calls into, and of the script around it: the
    [fillna] of [load_data], the options and text boxes of the sidebar and
    the results view.  Reading and writing CSV text and the widgets
    themselves are not embedded.

    - A [DataFrame] is a list of column labels and a list of rows; a row is
      a finite map from column label to text, so the labels of a frame are
      distinct.  A label of the frame that a row does not bind is a missing
      value (NaN).  [load_data] reads every cell with [dtype=str] and
      replaces NaN by the empty string, so loaded frames bind every label in
      every row, but the operations below are defined on NaN as pandas
      defines them ([na=False]).
    - A character is a code point below 256 and a text is a list of them.
    - [FilterCriteria] holds the values of the sidebar's five variables when
      the block starts (the two text boxes after their [.strip()]).
    - Python exceptions are the [Raise] outcome of the [outcome] monad.
    - [Series.str.contains] is called with [regex] left at its default
      [True]: its argument goes to a pattern engine (Python's [re] for an
      object column, RE2 for a pyarrow-backed one), which matches without
      regard to case and searches each cell.  The syntax embedded here is
      the part on which the two engines agree: ordinary characters, the dot,
      the quantifiers * + ? (greedy or lazy), alternation, plain groups and a
      backslash before an ASCII character that is neither a letter nor a
      digit.  Runs outside this part, and runs whose outcome depends on the
      pandas at hand, have the outcome [Unmodelled]. *)

From Stdlib Require Import Ascii String List Bool Arith Lia Sorted.
From stdpp Require Import base option list strings gmap.
Import ListNotations.

Local Open Scope string_scope.
Local Open Scope list_scope.
Local Open Scope nat_scope.

(** ** Outcomes of Python code *)

Inductive exn : Type :=
  | KeyError (label : string)      (* df["label"] on a frame without it *)
  | PatternError.                  (* the pattern engine refuses a pattern:
                                      re.error from Python's re, ArrowInvalid
                                      from the RE2 of a pyarrow-backed column *)

(** [Unmodelled] marks a run about which nothing is stated: a pattern that
    uses syntax outside the fragment embedded in [sre_parse] below, or a
    search whose outcome depends on the pandas at hand (see
    [str_contains]). *)
Inductive outcome (A : Type) : Type :=
  | Ok (a : A)
  | Raise (e : exn)
  | Unmodelled.
Arguments Ok {A} a.
Arguments Raise {A} e.
Arguments Unmodelled {A}.

Definition bind {A B} (m : outcome A) (k : A -> outcome B) : outcome B :=
  match m with
  | Ok a => k a
  | Raise e => Raise e
  | Unmodelled => Unmodelled
  end.

Notation "'try!' x := m 'in' k" := (bind m (fun x => k))
  (at level 10, x name, m at level 100, k at level 200).

Definition returns {A} (m : outcome A) : Prop := exists a, m = Ok a.

(** ** Characters and case folding *)

Definition chars : Type := list ascii.

Definition code (c : ascii) : nat := nat_of_ascii c.

(** Simple lower-casing of a code point below 256, as [re.IGNORECASE] folds
    text: A-Z and the Latin-1 capitals (all of 192..222 but the
    multiplication sign 215) move up by 32. *)
Definition lower (c : ascii) : ascii :=
  let n := code c in
  if ((65 <=? n) && (n <=? 90)) || ((192 <=? n) && (n <=? 222) && negb (n =? 215))
  then ascii_of_nat (n + 32)
  else c.

Definition lowers (s : chars) : chars := map lower s.

Definition same_letter (a b : ascii) : bool :=
  if ascii_dec (lower a) (lower b) then true else false.

(** ** Regular expressions: the fragment of [re] that is embedded *)

Inductive regex : Type :=
  | Eps                          (* the empty pattern *)
  | Lit (c : ascii)              (* an ordinary character *)
  | Dot                          (* "." : any character but a newline *)
  | Cat (r1 r2 : regex)
  | Alt (r1 r2 : regex)          (* r1|r2 *)
  | Star (r : regex)             (* r* *)
  | Void.                        (* matches nothing; only derivatives produce it *)

Definition newline : ascii := ascii_of_nat 10.

(** What one pattern atom accepts under [re.IGNORECASE], without [re.DOTALL]. *)
Definition lit_ok (c t : ascii) : bool := same_letter c t.
Definition dot_ok (t : ascii) : bool := if ascii_dec t newline then false else true.

(** The language of a pattern: [re_match r s] when [r] matches exactly [s]. *)
Inductive re_match : regex -> chars -> Prop :=
  | M_eps : re_match Eps []
  | M_lit c t : lit_ok c t = true -> re_match (Lit c) [t]
  | M_dot t : dot_ok t = true -> re_match Dot [t]
  | M_cat r1 r2 s1 s2 :
      re_match r1 s1 -> re_match r2 s2 -> re_match (Cat r1 r2) (s1 ++ s2)
  | M_alt_l r1 r2 s : re_match r1 s -> re_match (Alt r1 r2) s
  | M_alt_r r1 r2 s : re_match r2 s -> re_match (Alt r1 r2) s
  | M_star_nil r : re_match (Star r) []
  | M_star_cons r s1 s2 :
      re_match r s1 -> re_match (Star r) s2 -> re_match (Star r) (s1 ++ s2).

(** The matcher that runs: derivatives of the pattern by the text. *)
Fixpoint nullable (r : regex) : bool :=
  match r with
  | Eps => true
  | Lit _ | Dot | Void => false
  | Cat r1 r2 => nullable r1 && nullable r2
  | Alt r1 r2 => nullable r1 || nullable r2
  | Star _ => true
  end.

Fixpoint deriv (t : ascii) (r : regex) : regex :=
  match r with
  | Eps | Void => Void
  | Lit c => if lit_ok c t then Eps else Void
  | Dot => if dot_ok t then Eps else Void
  | Cat r1 r2 =>
      if nullable r1 then Alt (Cat (deriv t r1) r2) (deriv t r2)
      else Cat (deriv t r1) r2
  | Alt r1 r2 => Alt (deriv t r1) (deriv t r2)
  | Star r1 => Cat (deriv t r1) (Star r1)
  end.

(** [match_here r s]: some prefix of [s] is matched by [r]. *)
Fixpoint match_here (r : regex) (s : chars) {struct s} : bool :=
  nullable r ||
  match s with
  | [] => false
  | t :: s' => match_here (deriv t r) s'
  end.

(** [Pattern.search]: some slice of the text is matched by [r]; the scan
    tries each start position from the left. *)
Fixpoint re_search (r : regex) (s : chars) {struct s} : bool :=
  match_here r s ||
  match s with
  | [] => false
  | _ :: s' => re_search r s'
  end.

(** ** Parsing a pattern ([sre_parse]) *)

Definition is_quantifier (c : ascii) : bool :=
  match c with
  | "*" | "+" | "?" => true
  | _ => false
  end%char.

Definition is_ascii_alnum (c : ascii) : bool :=
  let n := code c in
  ((48 <=? n) && (n <=? 57)) || ((65 <=? n) && (n <=? 90)) || ((97 <=? n) && (n <=? 122)).

(** The characters that [re] treats specially (the set of [re.escape]'s
    classic metacharacters). *)
Definition is_special (c : ascii) : bool :=
  match c with
  | "." | "^" | "$" | "*" | "+" | "?" | "{" | "}" | "[" | "]" | "\" | "|"
  | "(" | ")" => true
  | _ => false
  end%char.

(** A pattern with no special character. *)
Definition plain (p : chars) : bool := forallb (fun c => negb (is_special c)) p.

(** One nesting level of the parser: the alternatives closed so far by "|"
    and the items of the alternative being read, both latest first.  An item
    carries whether it is already a repetition. *)
Record frame : Type := Frame {
  alts : list regex;
  items : list (regex * bool)
}.

Definition empty_frame : frame := Frame [] [].

Definition cat_items (its : list (regex * bool)) : regex :=
  fold_left (fun acc it => Cat it.1 acc) its Eps.

Definition close_frame (f : frame) : regex :=
  fold_left (fun acc a => Alt a acc) (alts f) (cat_items (items f)).

Definition push_item (f : frame) (r : regex) (rep : bool) : frame :=
  Frame (alts f) ((r, rep) :: items f).

Definition next_branch (f : frame) : frame :=
  Frame (cat_items (items f) :: alts f) [].

Definition repeat_of (q : ascii) (r : regex) : regex :=
  match q with
  | "*" => Star r
  | "+" => Cat r (Star r)
  | _ => Alt Eps r
  end%char.

Definition is_digit (c : ascii) : bool :=
  let n := code c in (48 <=? n) && (n <=? 57).

Fixpoint skip_digits (s : chars) : chars :=
  match s with
  | [] => []
  | c :: s' => if is_digit c then skip_digits s' else s
  end.

Definition starts_with (x : ascii) (s : chars) : bool :=
  match s with
  | [] => false
  | c :: _ => if ascii_dec c x then true else false
  end.

(** What follows an opening brace reads as a counted repetition: digits, then
    maybe a comma and digits, then the closing brace, and not the closing
    brace at once.  Otherwise the brace stands for itself. *)
Definition opens_repeat (rest : chars) : bool :=
  if starts_with "}" rest then false
  else
    let r := skip_digits rest in
    starts_with "}" r || (starts_with "," r && starts_with "}" (skip_digits (tail r))).

(** The characters that open syntax outside the fragment. *)
Definition is_unmodelled_meta (c : ascii) : bool :=
  match c with
  | "^" | "$" | "[" => true
  | _ => false
  end%char.

(** Groups nested deeper than this are outside the fragment: [re.compile]
    is recursive and gives up at a depth that depends on the interpreter's
    stack. *)
Definition max_nesting : nat := 50.

(** The parser reads the pattern from the left.  It raises where the engines
    refuse the pattern: a group left open, a closing parenthesis without an
    opening one, a quantifier with nothing to repeat or after a quantifier,
    a backslash at the end.  It answers [Unmodelled] as soon as it meets
    syntax outside the fragment: an extension group "(?", groups nested too
    deep, a possessive quantifier, a counted repetition, a backslash before a
    letter, a digit or a character above 127, and the characters ^ $ [.
    The characters ] and } and an opening brace that opens no counted
    repetition stand for themselves. *)
Fixpoint sre_parse (s : chars) (stack : list frame) (cur : frame) {struct s}
  : outcome regex :=
  match s with
  | [] =>
      match stack with
      | [] => Ok (close_frame cur)
      | _ :: _ => Raise PatternError              (* missing ) *)
      end
  | c :: rest =>
      if ascii_dec c "(" then
        if starts_with "?" rest then Unmodelled   (* extension notation *)
        else if max_nesting <=? length stack then Unmodelled
        else sre_parse rest (cur :: stack) empty_frame
      else if ascii_dec c ")" then
        match stack with
        | [] => Raise PatternError                (* unbalanced parenthesis *)
        | up :: stack' => sre_parse rest stack' (push_item up (close_frame cur) false)
        end
      else if ascii_dec c "|" then sre_parse rest stack (next_branch cur)
      else if is_quantifier c then
        match items cur with
        | [] => Raise PatternError                (* nothing to repeat *)
        | (_, true) :: _ => Raise PatternError    (* multiple repeat *)
        | (r, false) :: its =>
            let cur' := Frame (alts cur) ((repeat_of c r, true) :: its) in
            match rest with
            | d :: rest' =>
                if ascii_dec d "?" then sre_parse rest' stack cur'   (* lazy *)
                else if ascii_dec d "+" then Unmodelled              (* possessive *)
                else sre_parse rest stack cur'
            | [] => sre_parse rest stack cur'
            end
        end
      else if ascii_dec c "\" then
        match rest with
        | [] => Raise PatternError                (* bad escape (end of pattern) *)
        | d :: rest' =>
            if is_ascii_alnum d then Unmodelled   (* class, backreference, ... *)
            else if 128 <=? code d then Unmodelled
            else sre_parse rest' stack (push_item cur (Lit d) false)
        end
      else if ascii_dec c "." then sre_parse rest stack (push_item cur Dot false)
      else if ascii_dec c "{" then
        if opens_repeat rest then Unmodelled      (* counted repetition *)
        else sre_parse rest stack (push_item cur (Lit c) false)
      else if is_unmodelled_meta c then Unmodelled
      else sre_parse rest stack (push_item cur (Lit c) false)
  end.

(** Compiling a pattern for a search without regard to case:
    [re.compile(pat, flags=re.IGNORECASE)]. *)
Definition re_compile (pat : string) : outcome regex :=
  sre_parse (list_ascii_of_string pat) [] empty_frame.

(** ** Frames, series and masks (pandas) *)

Abbreviation Row := (gmap string string).

Record DataFrame : Type := mkDataFrame {
  columns : list string;
  rows : list Row
}.

(** A column taken out of a frame: one cell per row, [None] for NaN. *)
Definition Series : Type := list (option string).

(** [df[label]]. *)
Definition getitem (df : DataFrame) (label : string) : outcome Series :=
  if bool_decide (label ∈ columns df)
  then Ok (map (fun r : Row => r !! label) (rows df))
  else Raise (KeyError label).

(** What each element-wise test answers on one cell. *)
Definition cell_in (values : list string) (cell : option string) : bool :=
  match cell with
  | Some v => bool_decide (v ∈ values)
  | None => false                       (* NaN is in no list of texts *)
  end.

Definition cell_eq (value : string) (cell : option string) : bool :=
  match cell with
  | Some v => bool_decide (v = value)
  | None => false                       (* NaN equals nothing *)
  end.

Definition cell_search (rx : regex) (cell : option string) : bool :=
  match cell with
  | Some v => re_search rx (list_ascii_of_string v)
  | None => false                       (* na=False *)
  end.

(** [col.isin(values)]. *)
Definition isin (col : Series) (values : list string) : list bool :=
  map (cell_in values) col.

(** [col == value]. *)
Definition eq_scalar (col : Series) (value : string) : list bool :=
  map (cell_eq value) col.

(** The column holds at least one text. *)
Definition has_text (col : Series) : bool :=
  existsb (fun cell : option string =>
             match cell with Some _ => true | None => false end) col.

(** [col.str.contains(pat, case=False, na=False)]; [regex] keeps its default
    [True], so [pat] goes to the pattern engine.  A pattern that the engine
    refuses raises when the column holds a text.  On a column without any
    text the outcome depends on the pandas at hand (the object-dtype
    implementation compiles the pattern first and raises, the pyarrow one
    never hands it to the engine and returns), so nothing is stated there. *)
Definition str_contains (col : Series) (pat : string) : outcome (list bool) :=
  match re_compile pat with
  | Ok rx => Ok (map (cell_search rx) col)
  | Raise e => if has_text col then Raise e else Unmodelled
  | Unmodelled => Unmodelled
  end.

(** [m1 | m2] on two masks. *)
Definition mask_or (m1 m2 : list bool) : list bool := zip_with orb m1 m2.

(** [df[mask]]: the rows whose mask entry is [True], in the frame's order. *)
Definition boolean_index (df : DataFrame) (mask : list bool) : DataFrame :=
  mkDataFrame (columns df) (map fst (List.filter snd (zip (rows df) mask))).

(** ** The filter criteria: the sidebar's variables at line 87 *)

Record FilterCriteria : Type := mkCriteria {
  selected_compounds : list string;
  selected_brand : string;
  model_search : string;
  selected_position : string;
  free_search : string
}.

(** ** The five stages, lines 89-108 *)

Definition compound_stage (c : FilterCriteria) (filtered_df : DataFrame)
  : outcome DataFrame :=
  if bool_decide ("All" ∈ selected_compounds c) then Ok filtered_df
  else
    try! col := getitem filtered_df "Compound" in
    Ok (boolean_index filtered_df (isin col (selected_compounds c))).

Definition brand_stage (c : FilterCriteria) (filtered_df : DataFrame)
  : outcome DataFrame :=
  if bool_decide (selected_brand c = "All") then Ok filtered_df
  else
    try! col := getitem filtered_df "Brand" in
    Ok (boolean_index filtered_df (eq_scalar col (selected_brand c))).

Definition model_stage (c : FilterCriteria) (filtered_df : DataFrame)
  : outcome DataFrame :=
  if bool_decide (model_search c = "") then Ok filtered_df
  else
    try! col := getitem filtered_df "Model" in
    try! mask := str_contains col (model_search c) in
    Ok (boolean_index filtered_df mask).

Definition position_stage (c : FilterCriteria) (filtered_df : DataFrame)
  : outcome DataFrame :=
  if bool_decide (selected_position c = "All") then Ok filtered_df
  else
    try! col := getitem filtered_df "Position" in
    try! mask := str_contains col (selected_position c) in
    Ok (boolean_index filtered_df mask).

Definition free_text_stage (c : FilterCriteria) (filtered_df : DataFrame)
  : outcome DataFrame :=
  if bool_decide (free_search c = "") then Ok filtered_df
  else
    try! notes := getitem filtered_df "Notes" in
    try! m1 := str_contains notes (free_search c) in
    try! part := getitem filtered_df "Tire_Part" in
    try! m2 := str_contains part (free_search c) in
    Ok (boolean_index filtered_df (mask_or m1 m2)).

(** The whole block: [filtered_df = df.copy()] and then each stage on the
    frame the one before it left. *)
Definition apply_filters (df : DataFrame) (c : FilterCriteria)
  : outcome DataFrame :=
  let filtered_df := df in
  try! filtered_df := compound_stage c filtered_df in
  try! filtered_df := brand_stage c filtered_df in
  try! filtered_df := model_stage c filtered_df in
  try! filtered_df := position_stage c filtered_df in
  free_text_stage c filtered_df.

(** ** What the specification means by containment *)

(** [p] is a slice of [s] once both are lower-cased: the literal,
    case-insensitive containment of the specification. *)
Definition icontains_spec (p s : chars) : Prop :=
  exists a b, lowers s = a ++ lowers p ++ b.

Fixpoint iprefix (p s : chars) : bool :=
  match p, s with
  | [], _ => true
  | _ :: _, [] => false
  | c :: p', t :: s' => same_letter c t && iprefix p' s'
  end.

Fixpoint icontains (p s : chars) : bool :=
  iprefix p s ||
  match s with
  | [] => false
  | _ :: s' => icontains p s'
  end.

(** The same on texts. *)
Definition text_icontains (p s : string) : bool :=
  icontains (list_ascii_of_string p) (list_ascii_of_string s).

(** The pattern of a text without special characters: its characters in a row. *)
Definition lit_seq (p : chars) : regex :=
  fold_right (fun c r => Cat (Lit c) r) Eps p.

(** A cell contains a text, literally and whatever the case. *)
Definition cell_icontains (p : string) (cell : option string) : bool :=
  match cell with
  | Some v => text_icontains p v
  | None => false
  end.

(** The specification's reading of it: the cell holds a text, and the query
    lower-cased is a slice of that text lower-cased. *)
Definition cell_contains_spec (p : string) (cell : option string) : Prop :=
  exists v, cell = Some v /\
    icontains_spec (list_ascii_of_string p) (list_ascii_of_string v).

(** ** The block read row by row *)

(** The rows of [df] that [keep] accepts, in order. *)
Definition select (df : DataFrame) (keep : Row -> bool) : DataFrame :=
  mkDataFrame (columns df) (List.filter keep (rows df)).

Definition everything : Row -> bool := fun _ => true.

(** The test that a stage applies to each row when it returns: it depends on
    the criteria and on the labels of the frame only.  A stage returns
    exactly when its plan is [Ok]; a plan that is not [Ok] says that the
    stage does not return, not how it ends. *)
Definition column_plan (label : string) (test : option string -> bool)
    (cols : list string) : outcome (Row -> bool) :=
  if bool_decide (label ∈ cols) then Ok (fun r : Row => test (r !! label))
  else Raise (KeyError label).

Definition contains_plan (label pat : string) (cols : list string)
  : outcome (Row -> bool) :=
  if bool_decide (label ∈ cols) then
    try! rx := re_compile pat in
    Ok (fun r : Row => cell_search rx (r !! label))
  else Raise (KeyError label).

Definition compound_plan (c : FilterCriteria) (cols : list string)
  : outcome (Row -> bool) :=
  if bool_decide ("All" ∈ selected_compounds c) then Ok everything
  else column_plan "Compound" (cell_in (selected_compounds c)) cols.

Definition brand_plan (c : FilterCriteria) (cols : list string)
  : outcome (Row -> bool) :=
  if bool_decide (selected_brand c = "All") then Ok everything
  else column_plan "Brand" (cell_eq (selected_brand c)) cols.

Definition model_plan (c : FilterCriteria) (cols : list string)
  : outcome (Row -> bool) :=
  if bool_decide (model_search c = "") then Ok everything
  else contains_plan "Model" (model_search c) cols.

Definition position_plan (c : FilterCriteria) (cols : list string)
  : outcome (Row -> bool) :=
  if bool_decide (selected_position c = "All") then Ok everything
  else contains_plan "Position" (selected_position c) cols.

Definition free_text_plan (c : FilterCriteria) (cols : list string)
  : outcome (Row -> bool) :=
  if bool_decide (free_search c = "") then Ok everything
  else
    try! in_notes := contains_plan "Notes" (free_search c) cols in
    try! in_part := contains_plan "Tire_Part" (free_search c) cols in
    Ok (fun r : Row => in_notes r || in_part r).

Definition pipeline_plan (c : FilterCriteria) (cols : list string)
  : outcome (Row -> bool) :=
  try! k1 := compound_plan c cols in
  try! k2 := brand_plan c cols in
  try! k3 := model_plan c cols in
  try! k4 := position_plan c cols in
  try! k5 := free_text_plan c cols in
  Ok (fun r : Row => k1 r && k2 r && k3 r && k4 r && k5 r).

(** The columns that the block reads under criteria [c], in reading order,
    and the patterns it compiles. *)
Definition reads (c : FilterCriteria) : list string :=
  (if bool_decide ("All" ∈ selected_compounds c) then [] else ["Compound"]) ++
  (if bool_decide (selected_brand c = "All") then [] else ["Brand"]) ++
  (if bool_decide (model_search c = "") then [] else ["Model"]) ++
  (if bool_decide (selected_position c = "All") then [] else ["Position"]) ++
  (if bool_decide (free_search c = "") then [] else ["Notes"; "Tire_Part"]).

Definition patterns (c : FilterCriteria) : list string :=
  (if bool_decide (model_search c = "") then [] else [model_search c]) ++
  (if bool_decide (selected_position c = "All") then [] else [selected_position c]) ++
  (if bool_decide (free_search c = "") then [] else [free_search c]).

Definition plain_text (p : string) : Prop := plain (list_ascii_of_string p) = true.




(** A text with every character lower-cased. *)
Definition lower_text (s : string) : string :=
  string_of_list_ascii (lowers (list_ascii_of_string s)).

(** The criteria that restrict nothing: the sidebar's defaults. *)
Definition no_restriction : FilterCriteria := mkCriteria ["All"] "All" "" "All" "".


(** Criteria that restrict on one field only. *)
Definition only_compounds (l : list string) : FilterCriteria :=
  mkCriteria l "All" "" "All" "".
Definition only_brand (b : string) : FilterCriteria :=
  mkCriteria ["All"] b "" "All" "".
Definition only_model (p : string) : FilterCriteria :=
  mkCriteria ["All"] "All" p "All" "".
Definition only_position (p : string) : FilterCriteria :=
  mkCriteria ["All"] "All" "" p "".
Definition only_free_text (p : string) : FilterCriteria :=
  mkCriteria ["All"] "All" "" "All" p.

(** ** Sample data *)

Definition tire_columns : list string :=
  ["Brand"; "Model"; "Compound"; "Tire_Part"; "OD_mm"; "Width_mm"; "Position";
   "Notes"; "Source"].

Definition tire (brand model compound tire_part position notes : string) : Row :=
  <["Brand" := brand]> (<["Model" := model]> (<["Compound" := compound]>
  (<["Tire_Part" := tire_part]> (<["OD_mm" := ""]> (<["Width_mm" := ""]>
  (<["Position" := position]> (<["Notes" := notes]> (<["Source" := ""]> ∅)))))))).

Definition nsr_m4 : Row := tire "NSR" "M4 Coupe" "Silicone" "NSR-5201" "Front/Rear" "".
Definition policar_917 : Row := tire "Policar" "Porsche 917" "Rubber" "PT-1202" "Rear" "fits 917K".
Definition carrera_m14 : Row := tire "Carrera" "M14" "Rubber" "QS-100" "Rear (wide)" "OD 19x7mm".
Definition blank_model : Row := tire "Bobkat" "" "Urethane" "BK-7" "Front" "".

Definition sample_df : DataFrame :=
  mkDataFrame tire_columns [nsr_m4; policar_917; carrera_m14; blank_model].

Definition frame_of (rs : list Row) : DataFrame := mkDataFrame tire_columns rs.

(** A frame whose source file had no Model column. *)
Definition df_without_model : DataFrame :=
  mkDataFrame
    ["Brand"; "Compound"; "Tire_Part"; "OD_mm"; "Width_mm"; "Position"; "Notes";
     "Source"]
    [delete "Model" nsr_m4; delete "Model" policar_917].

(** ** The rest of the page *)

(** *** Text boxes: [str.strip()] (lines 68 and 78) *)

(** Python's white space among the code points below 256: tab to carriage
    return, the four separators 28..31, the space, NEL and the no-break
    space. *)
Definition is_space (c : ascii) : bool :=
  let n := code c in
  ((9 <=? n) && (n <=? 13)) || ((28 <=? n) && (n <=? 32)) || (n =? 133) || (n =? 160).

Fixpoint lstrip (s : chars) : chars :=
  match s with
  | [] => []
  | c :: s' => if is_space c then lstrip s' else s
  end.

Definition rstrip (s : chars) : chars := rev (lstrip (rev s)).

Definition strip (s : chars) : chars := rstrip (lstrip s).

Definition py_strip (s : string) : string :=
  string_of_list_ascii (strip (list_ascii_of_string s)).

Definition all_space (s : chars) : bool := forallb is_space s.

(** A text that does not begin, or end, with white space. *)
Definition starts_clean (s : chars) : bool :=
  match s with
  | [] => true
  | c :: _ => negb (is_space c)
  end.

Definition ends_clean (s : chars) : bool := starts_clean (rev s).

(** What the widgets hand back: the lists and values picked and the texts
    typed. *)
Record Inputs : Type := mkInputs {
  picked_compounds : list string;
  picked_brand : string;
  typed_model : string;
  picked_position : string;
  typed_free_text : string
}.

(** The five variables that the sidebar leaves for the filter block. *)
Definition read_sidebar (w : Inputs) : FilterCriteria :=
  mkCriteria (picked_compounds w) (picked_brand w) (py_strip (typed_model w))
             (picked_position w) (py_strip (typed_free_text w)).

(** *** [df.fillna("")] (line 33) *)

Definition fill_row (value : string) (labels : list string) (r : Row) : Row :=
  fold_right (fun label acc =>
                match acc !! label with
                | Some _ => acc
                | None => <[label := value]> acc
                end) r labels.

Definition fillna (df : DataFrame) (value : string) : DataFrame :=
  mkDataFrame (columns df) (map (fill_row value (columns df)) (rows df)).

(** Every cell of the frame is a text. *)
Definition no_nan (df : DataFrame) : Prop :=
  forall r : Row, r ∈ rows df -> forall label, label ∈ columns df -> is_Some (r !! label).

(** *** The options of the sidebar (lines 52-75) *)

(** [col.dropna()] *)
Definition dropna (col : Series) : list string := omap id col.

(** [.unique()]: the values in order of first appearance. *)
Fixpoint unique_seen (seen l : list string) : list string :=
  match l with
  | [] => []
  | x :: l' =>
      if bool_decide (x ∈ seen) then unique_seen seen l'
      else x :: unique_seen (x :: seen) l'
  end.

Definition unique (l : list string) : list string := unique_seen [] l.

(** [sorted(...)] on texts: ascending in the order of their code points. *)
Fixpoint insert_sorted (x : string) (l : list string) : list string :=
  match l with
  | [] => [x]
  | y :: l' => if String.leb x y then x :: l else y :: insert_sorted x l'
  end.

Definition sorted (l : list string) : list string := fold_right insert_sorted [] l.

(** The order [sorted] sorts by. *)
Definition ascending (a b : string) : Prop := String.leb a b = true.

(** [["All"] + list(sorted(df[label].dropna().unique()))] *)
Definition options (df : DataFrame) (label : string) : outcome (list string) :=
  try! col := getitem df label in
  Ok ("All" :: sorted (unique (dropna col))).

Record Sidebar : Type := mkSidebar {
  compound_options : list string;
  brand_options : list string;
  position_options : list string;
  total_tires : nat                        (* the caption, line 81 *)
}.

Definition sidebar (df : DataFrame) : outcome Sidebar :=
  try! compounds := options df "Compound" in
  try! brands := options df "Brand" in
  try! positions := options df "Position" in
  Ok (mkSidebar compounds brands positions (length (rows df))).

(** *** The stages as a list *)

Definition stage : Type := DataFrame -> outcome DataFrame.

Definition stages (c : FilterCriteria) : list stage :=
  [compound_stage c; brand_stage c; model_stage c; position_stage c;
   free_text_stage c].

Fixpoint run_stages (ss : list stage) (df : DataFrame) : outcome DataFrame :=
  match ss with
  | [] => Ok df
  | s :: ss' => try! filtered_df := s df in run_stages ss' filtered_df
  end.

(** A stage with a plan: on every frame it returns exactly when its plan is
    [Ok] for the labels of the frame, and then selects with the plan's
    test. *)
Definition planned (s : stage) : Prop :=
  exists plan : list string -> outcome (Row -> bool),
    forall df out,
      s df = Ok out <->
      exists keep, plan (columns df) = Ok keep /\ out = select df keep.

(** On frames with labels [cols], stage [s] selects with [keep]. *)
Definition selects_with (cols : list string) (s : stage) (keep : Row -> bool) : Prop :=
  forall df, columns df = cols -> s df = Ok (select df keep).

Definition all_tests (ks : list (Row -> bool)) (r : Row) : bool :=
  forallb (fun k => k r) ks.

(** Criteria [c2] restrict at least as much as [c1]: each stage of [c1] is
    switched off, or asks what [c2] asks (for compounds: allows what [c2]
    allows). *)
Definition narrows (c2 c1 : FilterCriteria) : Prop :=
  ("All" ∈ selected_compounds c1 \/
   (("All" ∉ selected_compounds c2) /\
    forall v, v ∈ selected_compounds c2 -> v ∈ selected_compounds c1)) /\
  (selected_brand c1 = "All" \/ selected_brand c1 = selected_brand c2) /\
  (model_search c1 = "" \/ model_search c1 = model_search c2) /\
  (selected_position c1 = "All" \/ selected_position c1 = selected_position c2) /\
  (free_search c1 = "" \/ free_search c1 = free_search c2).

(** *** The results (lines 114-131) *)

Definition display_cols : list string :=
  ["Brand"; "Model"; "Compound"; "Tire_Part"; "OD_mm"; "Width_mm"; "Position";
   "Notes"; "Source"].

(** [df.empty]: no row or no column. *)
Definition df_empty (df : DataFrame) : bool :=
  (length (rows df) =? 0) || (length (columns df) =? 0).

(** [df[labels]] with a list of labels: the frame cut down to these columns,
    or [KeyError] when some label is missing (reported here for the first
    one). *)
Definition getitem_list (df : DataFrame) (labels : list string) : outcome DataFrame :=
  match List.find (fun label => negb (bool_decide (label ∈ columns df))) labels with
  | Some label => Raise (KeyError label)
  | None =>
      Ok (mkDataFrame labels
            (map (fun r : Row => filter (fun kv : string * string => kv.1 ∈ labels) r)
                 (rows df)))
  end.

Inductive Shown : Type :=
  | Warning                                 (* st.warning, line 117 *)
  | Table (t : DataFrame).                  (* st.dataframe, line 127 *)

(** The subheader's count and what is shown under it.  Frames carry no row
    index here, so [reset_index(drop=True)] has nothing to do. *)
Definition results_view (filtered_df : DataFrame) : outcome (nat * Shown) :=
  let found := length (rows filtered_df) in
  if df_empty filtered_df then Ok (found, Warning)
  else
    let cols := List.filter (fun col => bool_decide (col ∈ columns filtered_df))
                            display_cols in
    try! t := getitem_list filtered_df cols in
    Ok (found, Table t).

(** The script from the sidebar to the results, for a loaded frame. *)
Definition page (df : DataFrame) (w : Inputs) : outcome (Sidebar * (nat * Shown)) :=
  try! side := sidebar df in
  try! filtered_df := apply_filters df (read_sidebar w) in
  try! view := results_view filtered_df in
  Ok (side, view).

(** A frame with missing values, as [read_csv] gives them. *)
Definition raw_df : DataFrame :=
  mkDataFrame tire_columns
    [delete "Notes" nsr_m4; policar_917; delete "Compound" (delete "Notes" blank_model)].

(** * Properties *)

(** ** The outcome monad *)

Lemma bind_Ok_inv {A B} (m : outcome A) (k : A -> outcome B) (b : B) :
  bind m k = Ok b -> exists a, m = Ok a /\ k a = Ok b.
Proof. destruct m as [a| |]; simpl; intros H; try discriminate. eauto. Qed.

Lemma bind_assoc {A B C} (m : outcome A) (k : A -> outcome B) (h : B -> outcome C) :
  bind (bind m k) h = bind m (fun a => bind (k a) h).
Proof. by destruct m. Qed.

Lemma bind_ext {A B} (m : outcome A) (k1 k2 : A -> outcome B) :
  (forall a, m = Ok a -> k1 a = k2 a) -> bind m k1 = bind m k2.
Proof. destruct m; simpl; auto. Qed.

(** ** Case folding *)

Lemma same_letter_true a b : same_letter a b = true <-> lower a = lower b.
Proof. unfold same_letter. destruct (ascii_dec _ _); split; congruence. Qed.

Lemma same_letter_refl a : same_letter a a = true.
Proof. by apply same_letter_true. Qed.

Lemma lowers_app s1 s2 : lowers (s1 ++ s2) = lowers s1 ++ lowers s2.
Proof. apply map_app. Qed.

(** ** The matcher decides the language *)

Lemma re_match_cat_inv r1 r2 s :
  re_match (Cat r1 r2) s ->
  exists s1 s2, s = s1 ++ s2 /\ re_match r1 s1 /\ re_match r2 s2.
Proof. inversion 1; subst; eauto. Qed.

Lemma re_match_alt_inv r1 r2 s :
  re_match (Alt r1 r2) s -> re_match r1 s \/ re_match r2 s.
Proof. inversion 1; subst; auto. Qed.

Lemma re_match_lit_inv c s :
  re_match (Lit c) s -> exists t, s = [t] /\ lit_ok c t = true.
Proof. inversion 1; subst; eauto. Qed.

Lemma re_match_dot_inv s :
  re_match Dot s -> exists t, s = [t] /\ dot_ok t = true.
Proof. inversion 1; subst; eauto. Qed.

Lemma re_match_star_step r t s :
  re_match (Star r) (t :: s) ->
  exists s1 s2, s = s1 ++ s2 /\ re_match r (t :: s1) /\ re_match (Star r) s2.
Proof.
  intros H. remember (Star r) as q eqn:Hq. remember (t :: s) as w eqn:Hw.
  revert s Hw.
  induction H as [| | | | | | |q' s1 s2 H1 _ H2 IH2]; intros u Hu;
    try discriminate.
  injection Hq as ->. destruct s1 as [|t' s1'].
  - simpl in Hu. by apply IH2.
  - simpl in Hu. injection Hu as -> <-. eauto.
Qed.

Lemma nullable_spec r : nullable r = true <-> re_match r [].
Proof.
  induction r as [|c| |r1 IH1 r2 IH2|r1 IH1 r2 IH2|r IH|]; simpl.
  - split; [constructor|done].
  - split; [done|inversion 1].
  - split; [done|inversion 1].
  - rewrite andb_true_iff, IH1, IH2. split.
    + intros [H1 H2]. by apply (M_cat _ _ [] []).
    + intros (s1 & s2 & Hs & H1 & H2)%re_match_cat_inv.
      symmetry in Hs. apply app_eq_nil in Hs as [-> ->]. done.
  - rewrite orb_true_iff, IH1, IH2. split.
    + intros [H|H]; [by apply M_alt_l|by apply M_alt_r].
    + apply re_match_alt_inv.
  - split; [constructor|done].
  - split; [done|inversion 1].
Qed.

Lemma nullable_false r : nullable r = false -> ~ re_match r [].
Proof. intros H Hm%nullable_spec. congruence. Qed.

Lemma deriv_spec t r : forall s, re_match (deriv t r) s <-> re_match r (t :: s).
Proof.
  induction r as [|c| |r1 IH1 r2 IH2|r1 IH1 r2 IH2|r IH|]; intros s; simpl.
  - split; inversion 1.
  - destruct (lit_ok c t) eqn:Hc; split.
    + inversion 1; subst. by constructor.
    + intros (t' & [= <- ->] & _)%re_match_lit_inv. constructor.
    + inversion 1.
    + intros (t' & [= <- ->] & Hok)%re_match_lit_inv. congruence.
  - destruct (dot_ok t) eqn:Hc; split.
    + inversion 1; subst. by constructor.
    + intros (t' & [= <- ->] & _)%re_match_dot_inv. constructor.
    + inversion 1.
    + intros (t' & [= <- ->] & Hok)%re_match_dot_inv. congruence.
  - destruct (nullable r1) eqn:Hn.
    + split.
      * intros [H|H]%re_match_alt_inv.
        -- apply re_match_cat_inv in H as (s1 & s2 & -> & H1 & H2).
           apply IH1 in H1. by apply (M_cat _ _ (t :: s1) s2).
        -- apply IH2 in H. apply nullable_spec in Hn.
           by apply (M_cat _ _ [] (t :: s)).
      * intros (s1 & s2 & Hs & H1 & H2)%re_match_cat_inv.
        destruct s1 as [|t' s1']; simpl in Hs.
        -- subst s2. apply M_alt_r. by apply IH2.
        -- injection Hs as <- ->. apply M_alt_l. constructor; [by apply IH1|done].
    + split.
      * intros (s1 & s2 & -> & H1 & H2)%re_match_cat_inv.
        apply IH1 in H1. by apply (M_cat _ _ (t :: s1) s2).
      * intros (s1 & s2 & Hs & H1 & H2)%re_match_cat_inv.
        destruct s1 as [|t' s1']; simpl in Hs.
        -- by apply nullable_false in Hn.
        -- injection Hs as <- ->. constructor; [by apply IH1|done].
  - split.
    + intros [H|H]%re_match_alt_inv; [apply M_alt_l; by apply IH1|apply M_alt_r; by apply IH2].
    + intros [H|H]%re_match_alt_inv; [apply M_alt_l; by apply IH1|apply M_alt_r; by apply IH2].
  - split.
    + intros (s1 & s2 & -> & H1 & H2)%re_match_cat_inv.
      apply IH in H1. by apply (M_star_cons _ (t :: s1) s2).
    + intros (s1 & s2 & -> & H1 & H2)%re_match_star_step.
      constructor; [by apply IH|done].
  - split; inversion 1.
Qed.

Lemma match_here_spec s : forall r,
  match_here r s = true <-> exists s1 s2, s = s1 ++ s2 /\ re_match r s1.
Proof.
  induction s as [|t s IH]; intros r; simpl.
  - rewrite orb_false_r, nullable_spec. split.
    + intros H. by exists [], [].
    + intros (s1 & s2 & Hs & H). symmetry in Hs.
      apply app_eq_nil in Hs as [-> ->]. done.
  - rewrite orb_true_iff, nullable_spec, IH. split.
    + intros [H|(s1 & s2 & -> & H)].
      * by exists [], (t :: s).
      * exists (t :: s1), s2. split; [done|]. by apply deriv_spec.
    + intros (s1 & s2 & Hs & H). destruct s1 as [|t' s1']; simpl in Hs.
      * by left.
      * injection Hs as <- ->. right. exists s1', s2. split; [done|].
        by apply deriv_spec.
Qed.

Lemma re_search_spec r s :
  re_search r s = true <->
  exists a b c, s = a ++ b ++ c /\ re_match r b.
Proof.
  induction s as [|t s IH]; cbn [re_search].
  - rewrite orb_false_r, match_here_spec. split.
    + intros (s1 & s2 & Hs & H). by exists [], s1, s2.
    + intros (a & b & c & Hs & H). symmetry in Hs.
      apply app_eq_nil in Hs as [-> [-> ->]%app_eq_nil]. by exists [], [].
  - rewrite orb_true_iff, match_here_spec, IH. split.
    + intros [(s1 & s2 & Hs & H)|(a & b & c & -> & H)].
      * by exists [], s1, s2.
      * by exists (t :: a), b, c.
    + intros (a & b & c & Hs & H). destruct a as [|t' a']; simpl in Hs.
      * left. by exists b, c.
      * injection Hs as <- ->. right. by exists a', b, c.
Qed.

(** ** Patterns without special characters *)

Lemma re_match_lit_seq p : forall s,
  re_match (lit_seq p) s <-> lowers s = lowers p.
Proof.
  induction p as [|c p IH]; intros s; simpl.
  - split.
    + by inversion 1.
    + destruct s; [constructor|discriminate].
  - split.
    + intros (s1 & s2 & -> & H1 & H2)%re_match_cat_inv.
      apply re_match_lit_inv in H1 as (t & -> & Hok).
      apply same_letter_true in Hok. apply IH in H2. simpl. congruence.
    + destruct s as [|t s]; [discriminate|]. simpl. intros [= Ht Hs].
      apply (M_cat _ _ [t] s).
      * constructor. by apply same_letter_true.
      * by apply IH.
Qed.

Lemma iprefix_spec p : forall s,
  iprefix p s = true <-> exists s1 s2, s = s1 ++ s2 /\ lowers s1 = lowers p.
Proof.
  induction p as [|c p IH]; intros s; simpl.
  - split; [|done]. intros _. by exists [], s.
  - destruct s as [|t s].
    + split; [done|]. intros (s1 & s2 & Hs & H). symmetry in Hs.
      apply app_eq_nil in Hs as [-> ->]. discriminate.
    + rewrite andb_true_iff, same_letter_true, IH. split.
      * intros (Hc & s1 & s2 & -> & H). exists (t :: s1), s2. simpl. split; congruence.
      * intros (s1 & s2 & Hs & H). destruct s1 as [|t' s1']; [discriminate|].
        simpl in Hs, H. injection Hs as <- ->. injection H as Ht H.
        split; [done|]. by exists s1', s2.
Qed.

Lemma icontains_slices p s :
  icontains p s = true <->
  exists a b c, s = a ++ b ++ c /\ lowers b = lowers p.
Proof.
  induction s as [|t s IH]; cbn [icontains].
  - rewrite orb_false_r, iprefix_spec. split.
    + intros (s1 & s2 & Hs & H). by exists [], s1, s2.
    + intros (a & b & c & Hs & H). symmetry in Hs.
      apply app_eq_nil in Hs as [-> [-> ->]%app_eq_nil]. by exists [], [].
  - rewrite orb_true_iff, iprefix_spec, IH. split.
    + intros [(s1 & s2 & Hs & H)|(a & b & c & -> & H)].
      * by exists [], s1, s2.
      * by exists (t :: a), b, c.
    + intros (a & b & c & Hs & H). destruct a as [|t' a']; simpl in Hs.
      * left. by exists b, c.
      * injection Hs as <- ->. right. by exists a', b, c.
Qed.

(** The executable containment test decides the specification's notion. *)
Lemma icontains_correct p s : icontains p s = true <-> icontains_spec p s.
Proof.
  rewrite icontains_slices. unfold icontains_spec. split.
  - intros (a & b & c & -> & H). exists (lowers a), (lowers c).
    by rewrite !lowers_app, H.
  - intros (a' & b' & H). unfold lowers in H.
    apply map_eq_app in H as (a & r & -> & Ha & H).
    apply map_eq_app in H as (b & c & -> & Hb & Hc).
    by exists a, b, c.
Qed.

(** Under [re.IGNORECASE] a run of literals searches as the
    case-insensitive containment test. *)
Lemma re_search_lit_seq p s : re_search (lit_seq p) s = icontains p s.
Proof.
  apply eq_true_iff_eq. rewrite re_search_spec, icontains_slices.
  split; intros (a & b & c & Hs & H); exists a, b, c; split; try done;
    by apply re_match_lit_seq.
Qed.

Lemma special_cases c :
  is_special c = false ->
  c <> "("%char /\ c <> ")"%char /\ c <> "|"%char /\ c <> "\"%char /\
  c <> "."%char /\ c <> "{"%char /\
  is_quantifier c = false /\ is_unmodelled_meta c = false.
Proof.
  intros H. repeat split; try (intros ->; discriminate).
  - destruct (is_quantifier c) eqn:Hq; [|done].
    destruct c as [[] [] [] [] [] [] [] []]; simpl in *; congruence.
  - destruct (is_unmodelled_meta c) eqn:Hq; [|done].
    destruct c as [[] [] [] [] [] [] [] []]; simpl in *; congruence.
Qed.

Lemma sre_parse_ordinary c rest stack cur :
  is_special c = false ->
  sre_parse (c :: rest) stack cur = sre_parse rest stack (push_item cur (Lit c) false).
Proof.
  intros H.
  pose proof (special_cases c H) as (H1 & H2 & H3 & H4 & H5 & H6 & H7 & H8).
  cbn [sre_parse]. rewrite H7, H8.
  repeat (destruct (ascii_dec _ _); [congruence|]). done.
Qed.

Lemma cat_items_rev_lits p :
  cat_items (rev (map (fun c => (Lit c, false)) p)) = lit_seq p.
Proof.
  unfold cat_items. induction p as [|c p IH]; simpl; [done|].
  by rewrite fold_left_app, IH.
Qed.

Lemma sre_parse_plain_frames p : forall stack cur,
  plain p = true ->
  sre_parse p stack cur =
  sre_parse [] stack
    (Frame (alts cur) (rev (map (fun c => (Lit c, false)) p) ++ items cur)).
Proof.
  induction p as [|c p IH]; intros stack cur Hp.
  - by destruct cur.
  - simpl in Hp. apply andb_true_iff in Hp as [Hc Hp].
    apply negb_true_iff in Hc.
    rewrite sre_parse_ordinary, IH by done. simpl.
    by rewrite <- app_assoc.
Qed.

(** A pattern without special characters always compiles, to the run of its
    characters. *)
Lemma re_compile_plain pat :
  plain (list_ascii_of_string pat) = true ->
  re_compile pat = Ok (lit_seq (list_ascii_of_string pat)).
Proof.
  intros Hp. unfold re_compile. rewrite sre_parse_plain_frames by done.
  simpl. rewrite app_nil_r. unfold close_frame. simpl.
  by rewrite cat_items_rev_lits.
Qed.

(** ** Masks and selections *)

Lemma boolean_index_map (df : DataFrame) (keep : Row -> bool) :
  boolean_index df (map keep (rows df)) = select df keep.
Proof.
  unfold boolean_index, select. f_equal.
  induction (rows df) as [|r l IH]; simpl; [done|].
  destruct (keep r); simpl; by rewrite IH.
Qed.

Lemma mask_or_map {A} (f g : A -> bool) (l : list A) :
  mask_or (map f l) (map g l) = map (fun a => f a || g a) l.
Proof. unfold mask_or. induction l as [|a l IH]; simpl; [done|]. by rewrite IH. Qed.

Lemma select_everything df : select df everything = df.
Proof.
  destruct df as [cols rs]. unfold select. simpl. f_equal.
  induction rs as [|r rs IH]; simpl; [done|]. by rewrite IH.
Qed.

Lemma select_select df (f g : Row -> bool) :
  select (select df f) g = select df (fun r => f r && g r).
Proof.
  unfold select. simpl. f_equal.
  induction (rows df) as [|r l IH]; simpl; [done|].
  destruct (f r); simpl; [destruct (g r)|]; by rewrite IH.
Qed.

Lemma select_twice df (f : Row -> bool) : select (select df f) f = select df f.
Proof.
  rewrite select_select. unfold select. f_equal.
  apply filter_ext. intros r. by destruct (f r).
Qed.

Lemma select_sublist df (f : Row -> bool) : sublist (rows (select df f)) (rows df).
Proof.
  simpl. induction (rows df) as [|r l IH]; simpl; [constructor|].
  destruct (f r); by constructor.
Qed.

Lemma select_rows df (f : Row -> bool) (r : Row) :
  r ∈ rows (select df f) <-> r ∈ rows df /\ f r = true.
Proof. simpl. rewrite !list_elem_of_In. apply filter_In. Qed.

(** ** Every stage is a selection decided by its plan *)

Lemma getitem_present df label :
  label ∈ columns df -> getitem df label = Ok (map (fun r : Row => r !! label) (rows df)).
Proof. intros H. unfold getitem. by rewrite bool_decide_eq_true_2. Qed.

Lemma getitem_absent df label :
  label ∉ columns df -> getitem df label = Raise (KeyError label).
Proof. intros H. unfold getitem. by rewrite bool_decide_eq_false_2. Qed.

Lemma column_stage df label (test : option string -> bool) :
  (try! col := getitem df label in Ok (boolean_index df (map test col))) =
  (try! keep := column_plan label test (columns df) in Ok (select df keep)).
Proof.
  unfold getitem, column_plan. case_bool_decide; simpl; [|done].
  by rewrite map_map, boolean_index_map.
Qed.

Lemma str_contains_Ok col pat mask :
  str_contains col pat = Ok mask <->
  exists rx, re_compile pat = Ok rx /\ mask = map (cell_search rx) col.
Proof.
  unfold str_contains. destruct (re_compile pat) as [rx|e|].
  - split; [intros [= <-]; eauto|]. by intros (? & [= <-] & ->).
  - split; [by destruct (has_text col)|]. by intros (? & ? & _).
  - split; [done|]. by intros (? & ? & _).
Qed.

Lemma contains_plan_Ok label pat cols keep :
  contains_plan label pat cols = Ok keep <->
  label ∈ cols /\
  exists rx, re_compile pat = Ok rx /\
             keep = fun r : Row => cell_search rx (r !! label).
Proof.
  unfold contains_plan. case_bool_decide as Hl.
  - destruct (re_compile pat) as [rx| |]; simpl.
    + split; [intros [= <-]; eauto|]. by intros (_ & ? & [= <-] & ->).
    + split; [done|]. by intros (_ & ? & ? & _).
    + split; [done|]. by intros (_ & ? & ? & _).
  - split; [done|]. by intros [? _].
Qed.

(** A search of one column: the mask it computes when it returns. *)
Lemma contains_mask_Ok df label pat mask :
  (try! col := getitem df label in str_contains col pat) = Ok mask <->
  exists keep, contains_plan label pat (columns df) = Ok keep /\
               mask = map keep (rows df).
Proof.
  split.
  - intros (col & Hcol & Hm)%bind_Ok_inv. unfold getitem in Hcol.
    case_bool_decide as Hl; [|done]. injection Hcol as <-.
    apply str_contains_Ok in Hm as (rx & Hrx & ->).
    eexists. split; [apply contains_plan_Ok; eauto|]. by rewrite map_map.
  - intros (keep & (Hl & rx & Hrx & ->)%contains_plan_Ok & ->).
    rewrite getitem_present by done. simpl.
    apply str_contains_Ok. exists rx. split; [done|]. by rewrite map_map.
Qed.

Lemma compound_stage_plan c df :
  compound_stage c df =
  (try! keep := compound_plan c (columns df) in Ok (select df keep)).
Proof.
  unfold compound_stage, compound_plan. case_bool_decide; simpl.
  - by rewrite select_everything.
  - apply column_stage.
Qed.

Lemma brand_stage_plan c df :
  brand_stage c df =
  (try! keep := brand_plan c (columns df) in Ok (select df keep)).
Proof.
  unfold brand_stage, brand_plan. case_bool_decide; simpl.
  - by rewrite select_everything.
  - apply column_stage.
Qed.

Lemma contains_stage_Ok df label pat out :
  (try! col := getitem df label in
   try! mask := str_contains col pat in Ok (boolean_index df mask)) = Ok out <->
  exists keep, contains_plan label pat (columns df) = Ok keep /\ out = select df keep.
Proof.
  rewrite <- bind_assoc. split.
  - intros (mask & (keep & Hk & ->)%contains_mask_Ok & [= <-])%bind_Ok_inv.
    exists keep. by rewrite boolean_index_map.
  - intros (keep & Hk & ->).
    assert ((try! col := getitem df label in str_contains col pat) =
            Ok (map keep (rows df))) as -> by (apply contains_mask_Ok; eauto).
    simpl. by rewrite boolean_index_map.
Qed.

(** Each stage returns exactly when its plan is [Ok], and then it is the
    selection by the plan's test. *)
Lemma compound_stage_Ok c df out :
  compound_stage c df = Ok out <->
  exists keep, compound_plan c (columns df) = Ok keep /\ out = select df keep.
Proof.
  rewrite compound_stage_plan. split.
  - intros (keep & Hk & [= <-])%bind_Ok_inv. eauto.
  - intros (keep & -> & ->). done.
Qed.

Lemma brand_stage_Ok c df out :
  brand_stage c df = Ok out <->
  exists keep, brand_plan c (columns df) = Ok keep /\ out = select df keep.
Proof.
  rewrite brand_stage_plan. split.
  - intros (keep & Hk & [= <-])%bind_Ok_inv. eauto.
  - intros (keep & -> & ->). done.
Qed.

Lemma model_stage_Ok c df out :
  model_stage c df = Ok out <->
  exists keep, model_plan c (columns df) = Ok keep /\ out = select df keep.
Proof.
  unfold model_stage, model_plan. case_bool_decide.
  - split; [intros [= <-]|intros (keep & [= <-] & ->)].
    + exists everything. by rewrite select_everything.
    + by rewrite select_everything.
  - apply contains_stage_Ok.
Qed.

Lemma position_stage_Ok c df out :
  position_stage c df = Ok out <->
  exists keep, position_plan c (columns df) = Ok keep /\ out = select df keep.
Proof.
  unfold position_stage, position_plan. case_bool_decide.
  - split; [intros [= <-]|intros (keep & [= <-] & ->)].
    + exists everything. by rewrite select_everything.
    + by rewrite select_everything.
  - apply contains_stage_Ok.
Qed.

Lemma free_text_stage_Ok c df out :
  free_text_stage c df = Ok out <->
  exists keep, free_text_plan c (columns df) = Ok keep /\ out = select df keep.
Proof.
  unfold free_text_stage, free_text_plan. case_bool_decide.
  { split; [intros [= <-]|intros (keep & [= <-] & ->)].
    - exists everything. by rewrite select_everything.
    - by rewrite select_everything. }
  rewrite <- bind_assoc. split.
  - intros (m1 & (k1 & Hk1 & ->)%contains_mask_Ok & Hrun)%bind_Ok_inv.
    rewrite <- bind_assoc in Hrun.
    apply bind_Ok_inv in Hrun as (m2 & (k2 & Hk2 & ->)%contains_mask_Ok & [= <-]).
    rewrite Hk1, Hk2. simpl. eexists. split; [done|].
    by rewrite mask_or_map, boolean_index_map.
  - intros (keep & Hk & ->).
    apply bind_Ok_inv in Hk as (k1 & Hk1 & Hk).
    apply bind_Ok_inv in Hk as (k2 & Hk2 & [= <-]).
    assert ((try! col := getitem df "Notes" in str_contains col (free_search c)) =
            Ok (map k1 (rows df))) as -> by (apply contains_mask_Ok; eauto).
    simpl. rewrite <- bind_assoc.
    assert ((try! col := getitem df "Tire_Part" in str_contains col (free_search c)) =
            Ok (map k2 (rows df))) as -> by (apply contains_mask_Ok; eauto).
    simpl. by rewrite mask_or_map, boolean_index_map.
Qed.

(** The block as a whole returns exactly when the five plans are [Ok], and
    then it keeps the rows that pass all five tests. *)
Lemma apply_filters_Ok df c out :
  apply_filters df c = Ok out <->
  exists keep, pipeline_plan c (columns df) = Ok keep /\ out = select df keep.
Proof.
  unfold apply_filters, pipeline_plan. split.
  - intros H.
    apply bind_Ok_inv in H as (d1 & (k1 & Hk1 & ->)%compound_stage_Ok & H).
    apply bind_Ok_inv in H as (d2 & (k2 & Hk2 & ->)%brand_stage_Ok & H).
    apply bind_Ok_inv in H as (d3 & (k3 & Hk3 & ->)%model_stage_Ok & H).
    apply bind_Ok_inv in H as (d4 & (k4 & Hk4 & ->)%position_stage_Ok & H).
    apply free_text_stage_Ok in H as (k5 & Hk5 & ->).
    simpl in *. rewrite Hk1, Hk2, Hk3, Hk4, Hk5. simpl.
    eexists. split; [done|].
    rewrite (select_select df k1 k2), (select_select df _ k3).
    by rewrite (select_select df _ k4), (select_select df _ k5).
  - intros (keep & Hk & ->).
    apply bind_Ok_inv in Hk as (k1 & Hk1 & Hk).
    apply bind_Ok_inv in Hk as (k2 & Hk2 & Hk).
    apply bind_Ok_inv in Hk as (k3 & Hk3 & Hk).
    apply bind_Ok_inv in Hk as (k4 & Hk4 & Hk).
    apply bind_Ok_inv in Hk as (k5 & Hk5 & [= <-]).
    rewrite (proj2 (compound_stage_Ok c df _) (ex_intro _ k1 (conj Hk1 eq_refl))).
    simpl.
    rewrite (proj2 (brand_stage_Ok c (select df k1) _) (ex_intro _ k2 (conj Hk2 eq_refl))).
    simpl.
    rewrite (proj2 (model_stage_Ok c (select (select df k1) k2) _)
               (ex_intro _ k3 (conj Hk3 eq_refl))).
    simpl.
    rewrite (proj2 (position_stage_Ok c (select (select (select df k1) k2) k3) _)
               (ex_intro _ k4 (conj Hk4 eq_refl))).
    simpl.
    rewrite (proj2 (free_text_stage_Ok c
                      (select (select (select (select df k1) k2) k3) k4) _)
               (ex_intro _ k5 (conj Hk5 eq_refl))).
    rewrite (select_select df k1 k2), (select_select df _ k3).
    by rewrite (select_select df _ k4), (select_select df _ k5).
Qed.

(** ** When the block returns *)

Lemma reads_compound c : "All" ∉ selected_compounds c -> "Compound" ∈ reads c.
Proof. intros H. unfold reads. rewrite (bool_decide_eq_false_2 _ H). set_solver. Qed.

Lemma reads_brand c : selected_brand c <> "All" -> "Brand" ∈ reads c.
Proof. intros H. unfold reads. rewrite (bool_decide_eq_false_2 _ H). set_solver. Qed.

Lemma reads_model c : model_search c <> "" -> "Model" ∈ reads c.
Proof. intros H. unfold reads. rewrite (bool_decide_eq_false_2 _ H). set_solver. Qed.

Lemma reads_position c : selected_position c <> "All" -> "Position" ∈ reads c.
Proof. intros H. unfold reads. rewrite (bool_decide_eq_false_2 _ H). set_solver. Qed.

Lemma reads_free_text c :
  free_search c <> "" -> "Notes" ∈ reads c /\ "Tire_Part" ∈ reads c.
Proof. intros H. unfold reads. rewrite (bool_decide_eq_false_2 _ H). set_solver. Qed.

Lemma patterns_model c : model_search c <> "" -> model_search c ∈ patterns c.
Proof. intros H. unfold patterns. rewrite (bool_decide_eq_false_2 _ H). set_solver. Qed.

Lemma patterns_position c :
  selected_position c <> "All" -> selected_position c ∈ patterns c.
Proof. intros H. unfold patterns. rewrite (bool_decide_eq_false_2 _ H). set_solver. Qed.

Lemma patterns_free_text c : free_search c <> "" -> free_search c ∈ patterns c.
Proof. intros H. unfold patterns. rewrite (bool_decide_eq_false_2 _ H). set_solver. Qed.

Lemma column_plan_returns label test cols :
  label ∈ cols -> returns (column_plan label test cols).
Proof. intros H. unfold column_plan. rewrite bool_decide_eq_true_2 by done. by eexists. Qed.

Lemma contains_plan_returns label pat cols :
  label ∈ cols -> returns (re_compile pat) -> returns (contains_plan label pat cols).
Proof.
  intros H [rx Hrx]. unfold contains_plan.
  rewrite bool_decide_eq_true_2, Hrx by done. by eexists.
Qed.

Lemma contains_plan_absent label pat cols :
  label ∉ cols -> contains_plan label pat cols = Raise (KeyError label).
Proof. intros H. unfold contains_plan. by rewrite bool_decide_eq_false_2. Qed.

Lemma column_plan_absent label test cols :
  label ∉ cols -> column_plan label test cols = Raise (KeyError label).
Proof. intros H. unfold column_plan. by rewrite bool_decide_eq_false_2. Qed.

Lemma pipeline_plan_returns c cols :
  (forall label, label ∈ reads c -> label ∈ cols) ->
  (forall pat, pat ∈ patterns c -> returns (re_compile pat)) ->
  returns (pipeline_plan c cols).
Proof.
  intros Hcols Hpats. unfold pipeline_plan.
  assert (returns (compound_plan c cols)) as [k1 ->].
  { unfold compound_plan. case_bool_decide; [by eexists|].
    apply column_plan_returns, Hcols. by apply reads_compound. }
  assert (returns (brand_plan c cols)) as [k2 ->].
  { unfold brand_plan. case_bool_decide; [by eexists|].
    apply column_plan_returns, Hcols. by apply reads_brand. }
  assert (returns (model_plan c cols)) as [k3 ->].
  { unfold model_plan. case_bool_decide; [by eexists|].
    apply contains_plan_returns;
      [by apply Hcols, reads_model|by apply Hpats, patterns_model]. }
  assert (returns (position_plan c cols)) as [k4 ->].
  { unfold position_plan. case_bool_decide; [by eexists|].
    apply contains_plan_returns;
      [by apply Hcols, reads_position|by apply Hpats, patterns_position]. }
  assert (returns (free_text_plan c cols)) as [k5 ->].
  { unfold free_text_plan. case_bool_decide as Hf; [by eexists|].
    destruct (reads_free_text c Hf) as [Hn Hp].
    destruct (contains_plan_returns "Notes" (free_search c) cols) as [f1 ->];
      [by apply Hcols|by apply Hpats, patterns_free_text|].
    destruct (contains_plan_returns "Tire_Part" (free_search c) cols) as [f2 ->];
      [by apply Hcols|by apply Hpats, patterns_free_text|].
    by eexists. }
  by eexists.
Qed.

Lemma apply_filters_returns df c :
  (forall label, label ∈ reads c -> label ∈ columns df) ->
  (forall pat, pat ∈ patterns c -> returns (re_compile pat)) ->
  returns (apply_filters df c).
Proof.
  intros Hcols Hpats.
  destruct (pipeline_plan_returns c (columns df) Hcols Hpats) as [keep Hk].
  exists (select df keep). apply apply_filters_Ok. eauto.
Qed.

Lemma apply_filters_Ok_select df c out :
  apply_filters df c = Ok out ->
  exists keep, pipeline_plan c (columns df) = Ok keep /\ out = select df keep.
Proof. apply apply_filters_Ok. Qed.

Lemma plain_text_compiles pat : plain_text pat -> returns (re_compile pat).
Proof. intros H. rewrite re_compile_plain by done. by eexists. Qed.

(** A stage that reads an absent column ends the run: no later stage can
    turn the exception back into a frame. *)
Lemma pipeline_plan_absent c cols label :
  label ∈ reads c -> label ∉ cols -> ~ returns (pipeline_plan c cols).
Proof.
  intros Hin Hout [keep Hk]. unfold pipeline_plan in Hk.
  apply bind_Ok_inv in Hk as (k1 & H1 & Hk).
  apply bind_Ok_inv in Hk as (k2 & H2 & Hk).
  apply bind_Ok_inv in Hk as (k3 & H3 & Hk).
  apply bind_Ok_inv in Hk as (k4 & H4 & Hk).
  apply bind_Ok_inv in Hk as (k5 & H5 & _).
  unfold reads in Hin.
  unfold compound_plan in H1. unfold brand_plan in H2. unfold model_plan in H3.
  unfold position_plan in H4. unfold free_text_plan in H5.
  repeat rewrite elem_of_app in Hin.
  destruct Hin as [Hin|[Hin|[Hin|[Hin|Hin]]]].
  - destruct (bool_decide ("All" ∈ selected_compounds c));
      [by apply elem_of_nil in Hin|].
    apply list_elem_of_singleton in Hin as ->.
    by rewrite column_plan_absent in H1.
  - destruct (bool_decide (selected_brand c = "All"));
      [by apply elem_of_nil in Hin|].
    apply list_elem_of_singleton in Hin as ->.
    by rewrite column_plan_absent in H2.
  - destruct (bool_decide (model_search c = ""));
      [by apply elem_of_nil in Hin|].
    apply list_elem_of_singleton in Hin as ->.
    by rewrite contains_plan_absent in H3.
  - destruct (bool_decide (selected_position c = "All"));
      [by apply elem_of_nil in Hin|].
    apply list_elem_of_singleton in Hin as ->.
    by rewrite contains_plan_absent in H4.
  - destruct (bool_decide (free_search c = ""));
      [by apply elem_of_nil in Hin|].
    apply bind_Ok_inv in H5 as (f1 & Hf1 & H5).
    apply bind_Ok_inv in H5 as (f2 & Hf2 & _).
    apply elem_of_cons in Hin as [->|Hin].
    + by rewrite contains_plan_absent in Hf1.
    + apply list_elem_of_singleton in Hin as ->.
      by rewrite contains_plan_absent in Hf2.
Qed.

(** ** Matching never looks at the case of the text *)

Lemma lower_idem c : lower (lower c) = lower c.
Proof. by destruct c as [[] [] [] [] [] [] [] []]. Qed.

Lemma lowers_idem s : lowers (lowers s) = lowers s.
Proof. unfold lowers. rewrite map_map. apply map_ext, lower_idem. Qed.

Lemma dot_ok_lower t : dot_ok (lower t) = dot_ok t.
Proof. by destruct t as [[] [] [] [] [] [] [] []]. Qed.

Lemma re_match_same_letters r s :
  re_match r s -> forall s', lowers s' = lowers s -> re_match r s'.
Proof.
  induction 1 as [|c t Hok|t Hok|r1 r2 s1 s2 _ IH1 _ IH2|r1 r2 s _ IH
                 |r1 r2 s _ IH|r|r s1 s2 _ IH1 _ IH2]; intros s' Hs'.
  - destruct s'; [constructor|discriminate].
  - destruct s' as [|t' [|]]; try discriminate. injection Hs' as Ht.
    constructor. apply same_letter_true. apply same_letter_true in Hok. congruence.
  - destruct s' as [|t' [|]]; try discriminate. injection Hs' as Ht.
    constructor. by rewrite <- dot_ok_lower, Ht, dot_ok_lower.
  - rewrite lowers_app in Hs'. apply map_eq_app in Hs' as (a & b & -> & Ha & Hb).
    constructor; [by apply IH1|by apply IH2].
  - apply M_alt_l. by apply IH.
  - apply M_alt_r. by apply IH.
  - destruct s'; [constructor|discriminate].
  - rewrite lowers_app in Hs'. apply map_eq_app in Hs' as (a & b & -> & Ha & Hb).
    constructor; [by apply IH1|by apply IH2].
Qed.

Lemma re_search_lowers rx s : re_search rx (lowers s) = re_search rx s.
Proof.
  apply eq_true_iff_eq. rewrite !re_search_spec. split.
  - intros (a' & b' & c' & Hs & Hm). unfold lowers in Hs.
    apply map_eq_app in Hs as (a & r & -> & Ha & Hs).
    apply map_eq_app in Hs as (b & c & -> & Hb & Hc).
    exists a, b, c. split; [done|].
    apply (re_match_same_letters _ _ Hm). subst b'. by rewrite lowers_idem.
  - intros (a & b & c & -> & Hm).
    exists (lowers a), (lowers b), (lowers c). split; [by rewrite !lowers_app|].
    apply (re_match_same_letters _ _ Hm). apply lowers_idem.
Qed.

Lemma icontains_lowers_pattern p s : icontains (lowers p) s = icontains p s.
Proof.
  apply eq_true_iff_eq. rewrite !icontains_slices.
  split; intros (a & b & c & Hs & H); exists a, b, c; split; try done.
  - by rewrite H, lowers_idem.
  - by rewrite lowers_idem.
Qed.

Lemma chars_of_lower_text s : list_ascii_of_string (lower_text s) = lowers (list_ascii_of_string s).
Proof. unfold lower_text. apply list_ascii_of_string_of_list_ascii. Qed.

Lemma cell_search_lower_text rx cell :
  cell_search rx (lower_text <$> cell) = cell_search rx cell.
Proof.
  destruct cell as [v|]; simpl; [|done].
  by rewrite chars_of_lower_text, re_search_lowers.
Qed.

(** ** Matching never looks at the case of the pattern *)




























Lemma has_text_fmap (f : string -> string) (col : Series) :
  has_text (map (fmap f) col) = has_text col.
Proof.
  unfold has_text. induction col as [|[v|] col IH]; simpl; [done|done|apply IH].
Qed.

Lemma str_contains_lower_cells col pat :
  str_contains (map (fmap lower_text) col) pat = str_contains col pat.
Proof.
  unfold str_contains. rewrite has_text_fmap.
  destruct (re_compile pat) as [rx| |]; simpl; [|done..].
  rewrite map_map. f_equal. apply map_ext, cell_search_lower_text.
Qed.

(** ** The substring stages on a pattern without special characters *)

Lemma cell_search_plain pat cell :
  cell_search (lit_seq (list_ascii_of_string pat)) cell = cell_icontains pat cell.
Proof. destruct cell as [v|]; simpl; [|done]. apply re_search_lit_seq. Qed.

Lemma cell_icontains_correct pat cell :
  cell_icontains pat cell = true <-> cell_contains_spec pat cell.
Proof.
  unfold cell_contains_spec. destruct cell as [v|]; simpl.
  - unfold text_icontains. rewrite icontains_correct. split; [eauto|].
    by intros (? & [= <-] & ?).
  - split; [done|]. by intros (? & ? & _).
Qed.

Lemma contains_plan_plain label pat cols :
  plain_text pat -> label ∈ cols ->
  contains_plan label pat cols =
  Ok (fun r : Row => cell_search (lit_seq (list_ascii_of_string pat)) (r !! label)).
Proof.
  intros Hp Hl. unfold contains_plan.
  by rewrite bool_decide_eq_true_2, re_compile_plain.
Qed.

Lemma select_ext df (f g : Row -> bool) :
  (forall r, f r = g r) -> select df f = select df g.
Proof. intros H. unfold select. f_equal. by apply filter_ext. Qed.

Lemma text_icontains_empty pat : pat <> "" -> text_icontains pat "" = false.
Proof. by destruct pat. Qed.

(** ** What each stage keeps when it is switched on *)

Lemma cell_eq_true value cell : cell_eq value cell = true <-> cell = Some value.
Proof.
  destruct cell as [v|]; simpl; [|done].
  rewrite bool_decide_eq_true. split; congruence.
Qed.


Lemma compound_stage_active c df :
  "All" ∉ selected_compounds c -> "Compound" ∈ columns df ->
  compound_stage c df =
  Ok (select df (fun r : Row => cell_in (selected_compounds c) (r !! "Compound"))).
Proof.
  intros Ha Hc. rewrite compound_stage_plan. unfold compound_plan, column_plan.
  by rewrite bool_decide_eq_false_2, bool_decide_eq_true_2.
Qed.

Lemma brand_stage_active c df :
  selected_brand c <> "All" -> "Brand" ∈ columns df ->
  brand_stage c df =
  Ok (select df (fun r : Row => cell_eq (selected_brand c) (r !! "Brand"))).
Proof.
  intros Ha Hc. rewrite brand_stage_plan. unfold brand_plan, column_plan.
  by rewrite bool_decide_eq_false_2, bool_decide_eq_true_2.
Qed.


Lemma position_stage_plain c df :
  selected_position c <> "All" -> plain_text (selected_position c) ->
  "Position" ∈ columns df ->
  position_stage c df =
  Ok (select df (fun r : Row => cell_icontains (selected_position c) (r !! "Position"))).
Proof.
  intros Hne Hp Hcol. apply position_stage_Ok. eexists. split.
  - unfold position_plan. by rewrite bool_decide_eq_false_2, contains_plan_plain.
  - apply select_ext. intros r. symmetry. apply cell_search_plain.
Qed.


(** ** The substring stages and case *)







(** * The claims *)

(** ** C1: a stage whose column is absent *)

(** C1, as stated, fails: the sample file has no Model column, the user types
    M4 in the model box, and the Model stage raises [KeyError] instead of
    treating every Model cell as the empty string. *)
Lemma C1_absent_model_column_raises :
  ("Model" ∉ columns df_without_model) /\
  apply_filters df_without_model (only_model "M4") = Raise (KeyError "Model").
Proof. split; [compute_done|by vm_compute]. Qed.

(** C1 (amended): when the column of a stage is absent from the table, the
    stage does not raise exactly when its criterion is the no-restriction
    value, because it then never reads the column and hands the frame on
    unchanged; when the criterion restricts, reading the absent column raises
    [KeyError] for that column (for Tire_Part, which the free-text stage reads
    after it has searched Notes, the stage returns no frame), and the run as a
    whole returns no frame. *)
Theorem C1_absent_column (df : DataFrame) (c : FilterCriteria) :
  ("Compound" ∉ columns df ->
     compound_stage c df =
     if bool_decide ("All" ∈ selected_compounds c) then Ok df
     else Raise (KeyError "Compound")) /\
  ("Brand" ∉ columns df ->
     brand_stage c df =
     if bool_decide (selected_brand c = "All") then Ok df
     else Raise (KeyError "Brand")) /\
  ("Model" ∉ columns df ->
     model_stage c df =
     if bool_decide (model_search c = "") then Ok df
     else Raise (KeyError "Model")) /\
  ("Position" ∉ columns df ->
     position_stage c df =
     if bool_decide (selected_position c = "All") then Ok df
     else Raise (KeyError "Position")) /\
  ("Notes" ∉ columns df ->
     free_text_stage c df =
     if bool_decide (free_search c = "") then Ok df
     else Raise (KeyError "Notes")) /\
  ("Tire_Part" ∉ columns df ->
     if bool_decide (free_search c = "") then free_text_stage c df = Ok df
     else ~ returns (free_text_stage c df)) /\
  (forall label, label ∈ reads c -> label ∉ columns df ->
     ~ returns (apply_filters df c)).
Proof.
  repeat split.
  - intros H. unfold compound_stage. case_bool_decide; [done|].
    by rewrite getitem_absent.
  - intros H. unfold brand_stage. case_bool_decide; [done|].
    by rewrite getitem_absent.
  - intros H. unfold model_stage. case_bool_decide; [done|].
    by rewrite getitem_absent.
  - intros H. unfold position_stage. case_bool_decide; [done|].
    by rewrite getitem_absent.
  - intros H. unfold free_text_stage. case_bool_decide; [done|].
    by rewrite getitem_absent.
  - intros Hcol. case_bool_decide as Hf.
    + unfold free_text_stage. by rewrite bool_decide_eq_true_2.
    + intros [out (keep & Hk & _)%free_text_stage_Ok].
      unfold free_text_plan in Hk. rewrite bool_decide_eq_false_2 in Hk by done.
      apply bind_Ok_inv in Hk as (k1 & _ & Hk).
      by rewrite contains_plan_absent in Hk.
  - intros label Hin Hout [out (keep & Hk & _)%apply_filters_Ok_select].
    apply (pipeline_plan_absent c (columns df) label Hin Hout). by exists keep.
Qed.

Lemma C1_absent_column_witness :
  ("Model" ∉ columns df_without_model) /\
  model_stage (only_model "M4") df_without_model = Raise (KeyError "Model") /\
  model_stage no_restriction df_without_model = Ok df_without_model.
Proof.
  assert ("Model" ∉ columns df_without_model) as H
    by compute_done.
  split; [exact H|]. split.
  - exact (proj1 (proj2 (proj2 (C1_absent_column df_without_model (only_model "M4")))) H).
  - exact (proj1 (proj2 (proj2 (C1_absent_column df_without_model no_restriction))) H).
Defined.

(** ** C2 to C5: the text boxes and the position are read as patterns *)

(** All four calls of [str.contains] leave [regex] at its default, so the
    texts of the model box, of the free-text box and of the position picked
    are handed to the pattern engine.  The four lemmas below run the code
    where this departs from what C2, C3, C4 and C5 say. *)

(** C2: every column is present and every cell is a text; the user types an
    opening parenthesis in the model box; the block raises instead of
    returning a frame. *)
Theorem C2_unbalanced_parenthesis_raises :
  apply_filters sample_df (only_model "(") = Raise PatternError /\
  model_stage (only_model "(") sample_df = Raise PatternError /\
  ~ returns (apply_filters sample_df (only_model "(")).
Proof.
  repeat split; try (by vm_compute). intros [out H]. by vm_compute in H.
Qed.

(** C3: the model box holds M.4 and the row's Model is M14, which does not
    contain the text M.4, yet the Model stage keeps the row (the dot stands
    for any character); and the non-empty query x* keeps a row whose Model is
    the empty string. *)
Theorem C3_pattern_is_not_literal :
  model_stage (only_model "M.4") (frame_of [carrera_m14]) = Ok (frame_of [carrera_m14]) /\
  carrera_m14 !! "Model" = Some "M14" /\
  text_icontains "M.4" "M14" = false /\
  model_stage (only_model "x*") (frame_of [blank_model]) = Ok (frame_of [blank_model]) /\
  blank_model !! "Model" = Some "".
Proof. repeat split; by vm_compute. Qed.

(** C4: the free-text box holds 9.7, neither the row's Notes (OD 19x7mm) nor
    its Tire_Part (QS-100) contains the text 9.7, and the free-text stage
    keeps the row. *)
Theorem C4_pattern_is_not_literal :
  free_text_stage (only_free_text "9.7") (frame_of [carrera_m14]) = Ok (frame_of [carrera_m14]) /\
  cell_icontains "9.7" (carrera_m14 !! "Notes") = false /\
  cell_icontains "9.7" (carrera_m14 !! "Tire_Part") = false.
Proof. repeat split; by vm_compute. Qed.

(** C5: the position box offers the values of the column; the user picks
    Rear (wide), and the Position stage drops the very row whose Position is
    Rear (wide), because the parentheses group instead of standing for
    themselves. *)
Theorem C5_pattern_is_not_literal :
  options (frame_of [carrera_m14]) "Position" = Ok ["All"; "Rear (wide)"] /\
  position_stage (only_position "Rear (wide)") (frame_of [carrera_m14]) = Ok (frame_of []) /\
  carrera_m14 !! "Position" = Some "Rear (wide)" /\
  text_icontains "Rear (wide)" "Rear (wide)" = true.
Proof. repeat split; by vm_compute. Qed.

(** ** C6: which stages look at case *)



(** ** C7: the result is a subsequence of the table *)

(** C7: whenever the block returns a frame, that frame has the labels of the
    input and its rows are a subsequence of the input's rows: the rows some
    test keeps, each once, in the input's order.  The block does return for
    every table holding the columns it reads and criteria whose patterns
    compile. *)
Theorem C7_subsequence (df : DataFrame) (c : FilterCriteria) :
  (forall out, apply_filters df c = Ok out ->
     columns out = columns df /\
     sublist (rows out) (rows df) /\
     exists keep : Row -> bool, rows out = List.filter keep (rows df)) /\
  ((forall label, label ∈ reads c -> label ∈ columns df) ->
   (forall pat, pat ∈ patterns c -> returns (re_compile pat)) ->
   returns (apply_filters df c)).
Proof.
  split; [|apply apply_filters_returns].
  intros out (keep & _ & ->)%apply_filters_Ok_select.
  split; [done|]. split; [apply select_sublist|]. by exists keep.
Qed.

Lemma C7_subsequence_witness :
  sublist [policar_917; carrera_m14] (rows sample_df).
Proof.
  apply (proj1 (C7_subsequence sample_df (only_compounds ["Rubber"]))
           (frame_of [policar_917; carrera_m14])).
  by vm_compute.
Defined.

(** ** C8: criteria that restrict nothing *)

(** C8: with every criterion at its no-restriction value the block returns
    the table it was given, whatever its columns. *)
Theorem C8_no_restriction_identity (df : DataFrame) :
  apply_filters df no_restriction = Ok df.
Proof. reflexivity. Qed.

(** ** C9: filtering twice *)

(** C9: running the block on its own output with the same criteria changes
    nothing: the second run returns the frame of the first, and when the
    first run raises there is no output to run on. *)
Theorem C9_idempotent (df : DataFrame) (c : FilterCriteria) :
  (try! out := apply_filters df c in apply_filters out c) = apply_filters df c /\
  (forall out, apply_filters df c = Ok out -> apply_filters out c = Ok out).
Proof.
  assert (forall out, apply_filters df c = Ok out -> apply_filters out c = Ok out) as H.
  { intros out (keep & Hk & ->)%apply_filters_Ok_select.
    apply apply_filters_Ok. exists keep. split; [done|]. by rewrite select_twice. }
  split; [|exact H].
  destruct (apply_filters df c) as [out| |] eqn:E; simpl; [by apply H|done..].
Qed.

Lemma C9_idempotent_witness :
  apply_filters (frame_of [policar_917]) (mkCriteria ["Rubber"] "All" "917" "rear" "") =
  Ok (frame_of [policar_917]).
Proof.
  apply (proj2 (C9_idempotent sample_df (mkCriteria ["Rubber"] "All" "917" "rear" ""))).
  by vm_compute.
Defined.

(** ** C10: the sentinel among the selected compounds *)

(** C10: when All is among the selected compounds the Compound stage hands
    every row on, whatever else is selected with it and whether or not the
    table has a Compound column. *)
Theorem C10_all_disables_compound_filter (df : DataFrame) (c : FilterCriteria) :
  "All" ∈ selected_compounds c -> compound_stage c df = Ok df.
Proof. intros H. unfold compound_stage. by rewrite bool_decide_eq_true_2. Qed.

Lemma C10_all_disables_compound_filter_witness :
  compound_stage (only_compounds ["Silicone"; "All"]) sample_df = Ok sample_df.
Proof. apply C10_all_disables_compound_filter. compute_done. Defined.

(** * The rest of the page *)

(** ** Stripping the text boxes *)

Lemma lstrip_margin s :
  exists a, s = a ++ lstrip s /\ all_space a = true /\ starts_clean (lstrip s) = true.
Proof.
  induction s as [|c s (a & Hs & Ha & Hc)]; simpl.
  - by exists [].
  - destruct (is_space c) eqn:E.
    + exists (c :: a). simpl. rewrite E, Ha. split; [congruence|done].
    + exists []. simpl. by rewrite E.
Qed.

Lemma lstrip_clean s : starts_clean s = true -> lstrip s = s.
Proof. destruct s as [|c s]; simpl; [done|]. by destruct (is_space c). Qed.

Lemma lstrip_spaces_app a s : all_space a = true -> lstrip (a ++ s) = lstrip s.
Proof.
  induction a as [|c a IH]; simpl; [done|].
  intros [Hc Ha]%andb_true_iff. rewrite Hc. by apply IH.
Qed.

Lemma lstrip_app s b :
  lstrip (s ++ b) = if all_space s then lstrip b else lstrip s ++ b.
Proof.
  induction s as [|c s IH]; simpl; [done|].
  destruct (is_space c); simpl; [apply IH|done].
Qed.

Lemma all_space_rev s : all_space (rev s) = all_space s.
Proof.
  unfold all_space. apply eq_true_iff_eq. rewrite !forallb_forall.
  split; intros H x Hx; apply H; by apply in_rev in Hx || apply in_rev.
Qed.

Lemma all_space_lstrip s : all_space s = true -> lstrip s = [].
Proof.
  induction s as [|c s IH]; simpl; [done|].
  intros [Hc Hs]%andb_true_iff. rewrite Hc. by apply IH.
Qed.

Lemma starts_clean_app s b :
  s <> [] -> starts_clean (s ++ b) = starts_clean s.
Proof. by destruct s. Qed.

Lemma strip_margins s :
  exists a b,
    s = a ++ strip s ++ b /\ all_space a = true /\ all_space b = true /\
    starts_clean (strip s) = true /\ ends_clean (strip s) = true.
Proof.
  destruct (lstrip_margin s) as (a & Hs & Ha & Hc).
  destruct (lstrip_margin (rev (lstrip s))) as (b & Hr & Hb & Hcr).
  exists a, (rev b). unfold strip, rstrip, ends_clean.
  assert (lstrip s = rev (lstrip (rev (lstrip s))) ++ rev b) as Hm.
  { rewrite <- rev_app_distr, <- Hr. by rewrite rev_involutive. }
  split; [by rewrite <- Hm|]. split; [done|]. split; [by rewrite all_space_rev|].
  split; [|by rewrite rev_involutive].
  destruct (rev (lstrip (rev (lstrip s)))) as [|c m] eqn:E; [done|].
  rewrite Hm in Hc. by rewrite starts_clean_app in Hc.
Qed.

Lemma strip_clean s :
  starts_clean s = true -> ends_clean s = true -> strip s = s.
Proof.
  intros H1 H2. unfold strip, rstrip. rewrite (lstrip_clean s H1).
  rewrite (lstrip_clean (rev s) H2). apply rev_involutive.
Qed.

Lemma strip_padding a s b :
  all_space a = true -> all_space b = true -> strip (a ++ s ++ b) = strip s.
Proof.
  intros Ha Hb. unfold strip, rstrip.
  rewrite lstrip_spaces_app, lstrip_app by done.
  destruct (all_space s) eqn:Hs.
  - by rewrite (all_space_lstrip b), (all_space_lstrip s).
  - rewrite rev_app_distr, lstrip_spaces_app by (by rewrite all_space_rev). done.
Qed.

Lemma chars_app (s1 s2 : string) :
  list_ascii_of_string (s1 ++ s2)%string =
  list_ascii_of_string s1 ++ list_ascii_of_string s2.
Proof. induction s1 as [|c s1 IH]; simpl; [done|]. by rewrite IH. Qed.

Lemma chars_py_strip s : list_ascii_of_string (py_strip s) = strip (list_ascii_of_string s).
Proof. apply list_ascii_of_string_of_list_ascii. Qed.

Lemma py_strip_blank s :
  all_space (list_ascii_of_string s) = true -> py_strip s = "".
Proof.
  intros H. unfold py_strip, strip, rstrip.
  by rewrite (all_space_lstrip _ H).
Qed.

(** X1: [strip] takes away white space at the two ends and nothing else: the
    text typed is the stripped text between two runs of white space, and the
    stripped text neither begins nor ends with white space. *)
Theorem X1_strip_margins (s : string) :
  exists a b : chars,
    list_ascii_of_string s = a ++ list_ascii_of_string (py_strip s) ++ b /\
    all_space a = true /\ all_space b = true /\
    starts_clean (list_ascii_of_string (py_strip s)) = true /\
    ends_clean (list_ascii_of_string (py_strip s)) = true.
Proof. rewrite chars_py_strip. apply strip_margins. Qed.

(** X2: stripping is idempotent, and a text with clean ends is left as it
    is. *)
Theorem X2_strip_idempotent (s : string) :
  py_strip (py_strip s) = py_strip s /\
  (starts_clean (list_ascii_of_string s) = true ->
   ends_clean (list_ascii_of_string s) = true -> py_strip s = s).
Proof.
  assert (forall t, starts_clean (list_ascii_of_string t) = true ->
                    ends_clean (list_ascii_of_string t) = true -> py_strip t = t) as H.
  { intros t H1 H2. unfold py_strip. rewrite strip_clean by done.
    apply string_of_list_ascii_of_string. }
  split; [|apply H].
  destruct (strip_margins (list_ascii_of_string s)) as (a & b & _ & _ & _ & H1 & H2).
  apply H; by rewrite chars_py_strip.
Qed.

Lemma X2_strip_idempotent_witness : py_strip "M4 Coupe" = "M4 Coupe".
Proof. apply (proj2 (X2_strip_idempotent "M4 Coupe")); by vm_compute. Defined.

(** X3: white space typed around a query never changes what the filter
    block does: the run on the padded texts is the run on the texts
    themselves.  A box that holds white space only restricts nothing. *)
Theorem X3_padding_is_ignored (df : DataFrame) (w : Inputs) (a b a' b' : string) :
  all_space (list_ascii_of_string a) = true ->
  all_space (list_ascii_of_string b) = true ->
  all_space (list_ascii_of_string a') = true ->
  all_space (list_ascii_of_string b') = true ->
  apply_filters df
    (read_sidebar (mkInputs (picked_compounds w) (picked_brand w)
                            (a ++ typed_model w ++ b) (picked_position w)
                            (a' ++ typed_free_text w ++ b'))) =
  apply_filters df (read_sidebar w) /\
  read_sidebar (mkInputs (picked_compounds w) (picked_brand w) a
                         (picked_position w) a') =
  mkCriteria (picked_compounds w) (picked_brand w) "" (picked_position w) "".
Proof.
  intros Ha Hb Ha' Hb'. unfold read_sidebar, py_strip. simpl. split.
  - by rewrite !chars_app, !strip_padding.
  - fold (py_strip a). fold (py_strip a'). by rewrite !py_strip_blank.
Qed.

Lemma X3_padding_is_ignored_witness :
  apply_filters sample_df
    (read_sidebar (mkInputs ["All"] "All" ("  " ++ "m4" ++ " ") "All" ("" ++ "" ++ " "))) =
  apply_filters sample_df (read_sidebar (mkInputs ["All"] "All" "m4" "All" "")).
Proof.
  apply (X3_padding_is_ignored sample_df (mkInputs ["All"] "All" "m4" "All" "")
           "  " " " "" " "); by vm_compute.
Defined.

(** ** Filling the missing values *)

Lemma fill_row_lookup value labels (r : Row) label :
  fill_row value labels r !! label =
  match r !! label with
  | Some v => Some v
  | None => if bool_decide (label ∈ labels) then Some value else None
  end.
Proof.
  induction labels as [|l labels IH]; simpl.
  - by destruct (r !! label).
  - destruct (fill_row value labels r !! l) as [x|] eqn:E.
    + rewrite IH. destruct (r !! label) eqn:Er; [done|].
      destruct (decide (label = l)) as [->|Hne].
      * rewrite (bool_decide_eq_true_2 (l ∈ l :: labels)) by set_solver.
        rewrite IH in E. by case_bool_decide.
      * assert (bool_decide (label ∈ l :: labels) = bool_decide (label ∈ labels)) as ->; [|done].
        apply bool_decide_ext. rewrite elem_of_cons. split; [by intros [?|?]|by right].
    + destruct (decide (label = l)) as [->|Hne].
      * rewrite lookup_insert_eq. rewrite IH in E.
        destruct (r !! l); [done|].
        by rewrite (bool_decide_eq_true_2 (l ∈ l :: labels)) by set_solver.
      * rewrite lookup_insert_ne, IH by done. destruct (r !! label); [done|].
        assert (bool_decide (label ∈ l :: labels) = bool_decide (label ∈ labels)) as ->; [|done].
        apply bool_decide_ext. rewrite elem_of_cons. split; [by intros [?|?]|by right].
Qed.

Lemma fill_row_full value labels (r : Row) :
  (forall label, label ∈ labels -> is_Some (r !! label)) ->
  fill_row value labels r = r.
Proof.
  intros H. apply map_eq. intros label. rewrite fill_row_lookup.
  destruct (r !! label) eqn:E; [done|]. case_bool_decide as Hl; [|done].
  destruct (H label Hl) as [v Hv]. congruence.
Qed.

Lemma fillna_no_nan df value : no_nan (fillna df value).
Proof.
  intros r' Hr' label Hl. simpl in *.
  apply list_elem_of_fmap in Hr' as (r & -> & _).
  rewrite fill_row_lookup. destruct (r !! label); [by eexists|].
  rewrite bool_decide_eq_true_2 by done. by eexists.
Qed.

Lemma fillna_full df value : no_nan df -> fillna df value = df.
Proof.
  intros H. destruct df as [cols rs]. unfold fillna. simpl in *. f_equal.
  induction rs as [|r rs IH]; simpl; [done|]. f_equal.
  - apply fill_row_full. intros label Hl. apply (H r); [left|done].
  - apply IH. intros r' Hr'. apply H. by right.
Qed.

(** X4: after [fillna] every cell of every column of the frame is a text:
    a cell that held a text keeps it, a missing cell holds the fill value,
    and nothing is written under a label the frame does not have.  The
    labels and the number of rows stay as they were. *)
Theorem X4_fillna_cells (df : DataFrame) (value : string) :
  no_nan (fillna df value) /\
  columns (fillna df value) = columns df /\
  length (rows (fillna df value)) = length (rows df) /\
  Forall2 (fun (r r' : Row) =>
             forall label,
               r' !! label =
               match r !! label with
               | Some v => Some v
               | None => if bool_decide (label ∈ columns df) then Some value else None
               end)
          (rows df) (rows (fillna df value)).
Proof.
  split; [apply fillna_no_nan|]. split; [done|]. simpl.
  split; [by rewrite length_map|].
  induction (rows df) as [|r rs IH]; simpl; constructor; [|done].
  intros label. apply fill_row_lookup.
Qed.

(** X5: filling twice is filling once, and a frame without missing values is
    left as it is. *)
Theorem X5_fillna_idempotent (df : DataFrame) (value value' : string) :
  fillna (fillna df value) value' = fillna df value /\
  (no_nan df -> fillna df value = df).
Proof.
  split; [|apply fillna_full]. apply fillna_full, fillna_no_nan.
Qed.

Lemma X5_fillna_idempotent_witness : fillna sample_df "" = sample_df.
Proof.
  apply (proj2 (X5_fillna_idempotent sample_df "" "")).
  unfold no_nan, sample_df, tire_columns. simpl. intros r Hr label Hl.
  repeat (apply elem_of_cons in Hr as [->|Hr]);
    try (repeat (apply elem_of_cons in Hl as [->|Hl]);
         try (eexists; vm_compute; reflexivity);
         by apply elem_of_nil in Hl).
  by apply elem_of_nil in Hr.
Defined.

(** ** The options offered by the sidebar *)

Lemma elem_of_insert_sorted x y l : x ∈ insert_sorted y l <-> x = y \/ x ∈ l.
Proof.
  induction l as [|z l IH]; simpl.
  - rewrite list_elem_of_singleton, elem_of_nil. tauto.
  - destruct (String.leb y z); rewrite !elem_of_cons; [tauto|].
    rewrite IH. tauto.
Qed.

Lemma elem_of_sorted x l : x ∈ sorted l <-> x ∈ l.
Proof.
  induction l as [|y l IH]; simpl; [done|].
  rewrite elem_of_insert_sorted, IH, elem_of_cons. tauto.
Qed.

Lemma NoDup_insert_sorted y l : y ∉ l -> NoDup l -> NoDup (insert_sorted y l).
Proof.
  induction l as [|z l IH]; simpl; intros Hy Hl.
  - apply NoDup_singleton.
  - destruct (String.leb y z); [by apply NoDup_cons|].
    apply NoDup_cons in Hl as [Hz Hl]. apply not_elem_of_cons in Hy as [Hyz Hy].
    apply NoDup_cons. split; [|by apply IH].
    rewrite elem_of_insert_sorted. intros [->|H]; [done|by apply Hz].
Qed.

Lemma NoDup_sorted l : NoDup l -> NoDup (sorted l).
Proof.
  induction l as [|y l IH]; simpl; intros Hl; [constructor|].
  apply NoDup_cons in Hl as [Hy Hl].
  apply NoDup_insert_sorted; [by rewrite elem_of_sorted|by apply IH].
Qed.

Lemma HdRel_insert_sorted a x l :
  ascending a x -> HdRel ascending a l -> HdRel ascending a (insert_sorted x l).
Proof.
  intros Hax Hl. destruct l as [|z l]; simpl; [by constructor|].
  destruct (String.leb x z); constructor; [done|]. by inversion Hl.
Qed.

Lemma Sorted_insert_sorted x l :
  Sorted ascending l -> Sorted ascending (insert_sorted x l).
Proof.
  induction l as [|z l IH]; simpl; intros Hl.
  - by repeat constructor.
  - destruct (String.leb x z) eqn:E.
    + constructor; [done|]. by constructor.
    + inversion Hl as [|? ? Hs Hh]; subst. constructor; [by apply IH|].
      apply HdRel_insert_sorted; [|done].
      destruct (String.leb_total x z) as [H|H]; [congruence|done].
Qed.

Lemma Sorted_sorted l : Sorted ascending (sorted l).
Proof.
  induction l as [|y l IH]; simpl; [constructor|]. by apply Sorted_insert_sorted.
Qed.

Lemma elem_of_unique_seen l : forall seen x,
  x ∈ unique_seen seen l <-> x ∈ l /\ x ∉ seen.
Proof.
  induction l as [|y l IH]; intros seen x; simpl.
  - rewrite elem_of_nil. tauto.
  - case_bool_decide as Hy.
    + rewrite IH, elem_of_cons. split; [tauto|].
      intros [[->|H] Hs]; [done|tauto].
    + rewrite !elem_of_cons, IH, not_elem_of_cons. split.
      * intros [->|(H & Hne & Hs)]; [by split; [left|]|tauto].
      * intros [[->|H] Hs]; [by left|].
        destruct (decide (x = y)) as [->|Hne]; [by left|tauto].
Qed.

Lemma NoDup_unique_seen l : forall seen, NoDup (unique_seen seen l).
Proof.
  induction l as [|y l IH]; intros seen; simpl; [constructor|].
  case_bool_decide; [apply IH|]. apply NoDup_cons. split; [|apply IH].
  rewrite elem_of_unique_seen, not_elem_of_cons. tauto.
Qed.

Lemma elem_of_unique x l : x ∈ unique l <-> x ∈ l.
Proof.
  unfold unique. rewrite elem_of_unique_seen, elem_of_nil. tauto.
Qed.

Lemma elem_of_dropna v (col : Series) : v ∈ dropna col <-> Some v ∈ col.
Proof.
  unfold dropna. rewrite list_elem_of_omap. split.
  - by intros ([w|] & H & [= <-]).
  - intros H. by exists (Some v).
Qed.

Lemma elem_of_column (df : DataFrame) label v :
  Some v ∈ map (fun r : Row => r !! label) (rows df) <->
  exists r : Row, r ∈ rows df /\ r !! label = Some v.
Proof.
  change (map ?f ?l) with (f <$> l). rewrite list_elem_of_fmap. split.
  - intros (r & Hv & Hr). eauto.
  - intros (r & Hr & Hv). eauto.
Qed.

Lemma options_present df label :
  label ∈ columns df ->
  options df label =
  Ok ("All" :: sorted (unique (dropna (map (fun r : Row => r !! label) (rows df))))).
Proof. intros H. unfold options. by rewrite getitem_present. Qed.

Lemma options_absent df label :
  label ∉ columns df -> options df label = Raise (KeyError label).
Proof. intros H. unfold options. by rewrite getitem_absent. Qed.

Lemma options_Ok_present df label opts :
  options df label = Ok opts -> label ∈ columns df.
Proof.
  intros H. destruct (decide (label ∈ columns df)) as [Hl|Hl]; [done|].
  by rewrite options_absent in H.
Qed.

Lemma elem_of_offered df label v :
  v ∈ sorted (unique (dropna (map (fun r : Row => r !! label) (rows df)))) <->
  exists r : Row, r ∈ rows df /\ r !! label = Some v.
Proof. by rewrite elem_of_sorted, elem_of_unique, elem_of_dropna, elem_of_column. Qed.

(** X6: for a column of the frame, the options are All followed by the texts
    that occur in the column, each once, in ascending order; missing values
    are not offered. *)
Theorem X6_options_content (df : DataFrame) (label : string) :
  label ∈ columns df ->
  exists offered,
    options df label = Ok ("All" :: offered) /\
    (forall v, v ∈ offered <-> exists r : Row, r ∈ rows df /\ r !! label = Some v) /\
    NoDup offered /\
    Sorted ascending offered.
Proof.
  intros H. eexists. split; [by apply options_present|].
  split; [apply elem_of_offered|]. split.
  - apply NoDup_sorted, NoDup_unique_seen.
  - apply Sorted_sorted.
Qed.

Lemma X6_options_content_witness :
  exists offered, options sample_df "Position" = Ok ("All" :: offered) /\ NoDup offered.
Proof.
  destruct (X6_options_content sample_df "Position") as (offered & H & _ & Hn & _);
    [compute_done|].
  by exists offered.
Defined.

Lemma sidebar_total df side :
  sidebar df = Ok side -> total_tires side = length (rows df).
Proof.
  intros H. unfold sidebar in H.
  apply bind_Ok_inv in H as (o1 & _ & H).
  apply bind_Ok_inv in H as (o2 & _ & H).
  apply bind_Ok_inv in H as (o3 & _ & [= <-]). done.
Qed.

(** X7: the sidebar needs the Compound, Brand and Position columns: it
    returns exactly when the frame has all three, and otherwise raises
    [KeyError] for the first of them, in this order, that is missing.  When it
    returns, the caption counts the rows of the whole table. *)
Theorem X7_sidebar_columns (df : DataFrame) :
  (returns (sidebar df) <->
   "Compound" ∈ columns df /\ "Brand" ∈ columns df /\ "Position" ∈ columns df) /\
  ("Compound" ∉ columns df -> sidebar df = Raise (KeyError "Compound")) /\
  ("Compound" ∈ columns df -> "Brand" ∉ columns df ->
     sidebar df = Raise (KeyError "Brand")) /\
  ("Compound" ∈ columns df -> "Brand" ∈ columns df -> "Position" ∉ columns df ->
     sidebar df = Raise (KeyError "Position")) /\
  (forall side, sidebar df = Ok side -> total_tires side = length (rows df)).
Proof.
  split; [|split; [|split; [|split]]].
  - split.
    + intros [side H]. unfold sidebar in H.
      apply bind_Ok_inv in H as (o1 & H1 & H).
      apply bind_Ok_inv in H as (o2 & H2 & H).
      apply bind_Ok_inv in H as (o3 & H3 & _).
      by repeat split; eapply options_Ok_present.
    + intros (Hc & Hb & Hp). unfold sidebar.
      rewrite !options_present by done. by eexists.
  - intros Hc. unfold sidebar. by rewrite options_absent.
  - intros Hc Hb. unfold sidebar.
    by rewrite (options_present df "Compound"), (options_absent df "Brand").
  - intros Hc Hb Hp. unfold sidebar.
    by rewrite (options_present df "Compound"), (options_present df "Brand"),
               (options_absent df "Position").
  - apply sidebar_total.
Qed.

Lemma X7_sidebar_columns_witness :
  sidebar (mkDataFrame ["Compound"; "Model"; "Position"] []) = Raise (KeyError "Brand").
Proof.
  apply (proj1 (proj2 (proj2 (X7_sidebar_columns _)))); compute_done.
Defined.

(** ** Picking from the options *)

Lemma select_all df (f : Row -> bool) :
  (forall r, r ∈ rows df -> f r = true) -> select df f = df.
Proof.
  destruct df as [cols rs]. unfold select. simpl. intros H. f_equal.
  induction rs as [|r rs IH]; simpl; [done|].
  rewrite (H r) by left. f_equal. apply IH. intros r' Hr'. apply H. by right.
Qed.

Lemma select_mono df (f g : Row -> bool) :
  (forall r, f r = true -> g r = true) ->
  sublist (rows (select df f)) (rows (select df g)).
Proof.
  intros H. simpl. induction (rows df) as [|r l IH]; simpl; [constructor|].
  destruct (f r) eqn:E.
  - rewrite (H r E). by constructor.
  - destruct (g r); [by constructor|done].
Qed.

Lemma apply_filters_only_brand df b :
  apply_filters df (only_brand b) = brand_stage (only_brand b) df.
Proof.
  unfold apply_filters. change (compound_stage (only_brand b) df) with (Ok df).
  simpl. by destruct (brand_stage (only_brand b) df).
Qed.

(** X8: picking any brand that the sidebar offers, with the other controls
    left alone, finds at least one tire, and every tire found is of that
    brand. *)
Theorem X8_offered_brand_finds_rows (df : DataFrame) (opts : list string) (b : string) :
  options df "Brand" = Ok opts -> b ∈ opts -> b <> "All" ->
  exists out,
    apply_filters df (only_brand b) = Ok out /\
    rows out <> [] /\
    forall r : Row, r ∈ rows out <-> r ∈ rows df /\ r !! "Brand" = Some b.
Proof.
  intros Ho Hb Hne. pose proof (options_Ok_present _ _ _ Ho) as Hcol.
  rewrite options_present in Ho by done. injection Ho as <-.
  apply elem_of_cons in Hb as [->|Hb]; [done|].
  apply elem_of_offered in Hb as (r0 & Hr0 & Hv0).
  eexists. split; [|split].
  - rewrite apply_filters_only_brand. by apply brand_stage_active.
  - intros Hnil.
    assert (r0 ∈ rows (select df (fun r : Row => cell_eq b (r !! "Brand")))) as Hin.
    { apply select_rows. split; [done|]. by apply cell_eq_true. }
    simpl in Hnil, Hin. rewrite Hnil in Hin. by apply elem_of_nil in Hin.
  - intros r. by rewrite select_rows, cell_eq_true.
Qed.

Lemma X8_offered_brand_finds_rows_witness :
  exists out, apply_filters sample_df (only_brand "NSR") = Ok out /\ rows out <> [].
Proof.
  destruct (X8_offered_brand_finds_rows sample_df
              ["All"; "Bobkat"; "Carrera"; "NSR"; "Policar"] "NSR")
    as (out & H & Hne & _); [by vm_compute|compute_done|done|].
  by exists out.
Defined.

(** X9: on a table whose Compound column has no missing value, ticking every
    compound that the sidebar offers (and anything else with them) finds
    every tire. *)
Theorem X9_all_compounds_find_all (df : DataFrame) (c : FilterCriteria)
    (offered : list string) :
  options df "Compound" = Ok ("All" :: offered) ->
  (forall v, v ∈ offered -> v ∈ selected_compounds c) ->
  (forall r : Row, r ∈ rows df -> is_Some (r !! "Compound")) ->
  compound_stage c df = Ok df.
Proof.
  intros Ho Hsel Hfull. pose proof (options_Ok_present _ _ _ Ho) as Hcol.
  rewrite options_present in Ho by done. injection Ho as <-.
  destruct (decide ("All" ∈ selected_compounds c)) as [Ha|Ha].
  - unfold compound_stage. by rewrite bool_decide_eq_true_2.
  - rewrite compound_stage_active by done. f_equal. apply select_all.
    intros r Hr. destruct (Hfull r Hr) as [v Hv]. rewrite Hv. simpl.
    apply bool_decide_eq_true_2, Hsel, elem_of_offered. eauto.
Qed.

Lemma X9_all_compounds_find_all_witness :
  compound_stage (only_compounds ["Urethane"; "Silicone"; "Rubber"]) sample_df =
  Ok sample_df.
Proof.
  apply (X9_all_compounds_find_all sample_df _ ["Rubber"; "Silicone"; "Urethane"]).
  - by vm_compute.
  - intros v Hv. repeat (apply elem_of_cons in Hv as [->|Hv]); try compute_done.
    by apply elem_of_nil in Hv.
  - intros r Hr. unfold sample_df in Hr. simpl in Hr.
    repeat (apply elem_of_cons in Hr as [->|Hr]);
      try (eexists; vm_compute; reflexivity).
    by apply elem_of_nil in Hr.
Defined.

(** ** Narrowing the criteria *)

Lemma column_plan_Ok label test cols keep :
  column_plan label test cols = Ok keep ->
  label ∈ cols /\ keep = fun r : Row => test (r !! label).
Proof.
  unfold column_plan. case_bool_decide; [|done]. by intros [= <-].
Qed.

Lemma cell_in_mono (s1 s2 : list string) cell :
  (forall v, v ∈ s2 -> v ∈ s1) -> cell_in s2 cell = true -> cell_in s1 cell = true.
Proof.
  intros H. destruct cell as [v|]; simpl; [|done].
  rewrite !bool_decide_eq_true. apply H.
Qed.

Lemma compound_plan_narrows c1 c2 cols k2 :
  ("All" ∈ selected_compounds c1 \/
   (("All" ∉ selected_compounds c2) /\
    forall v, v ∈ selected_compounds c2 -> v ∈ selected_compounds c1)) ->
  compound_plan c2 cols = Ok k2 ->
  exists k1, compound_plan c1 cols = Ok k1 /\ forall r, k2 r = true -> k1 r = true.
Proof.
  intros H H2. unfold compound_plan in *.
  destruct (decide ("All" ∈ selected_compounds c1)) as [Ha|Ha].
  { rewrite bool_decide_eq_true_2 by done. by exists everything. }
  destruct H as [H|[Hb Hsub]]; [done|].
  rewrite bool_decide_eq_false_2 in H2 by done.
  rewrite bool_decide_eq_false_2 by done.
  apply column_plan_Ok in H2 as [Hcol ->].
  unfold column_plan. rewrite bool_decide_eq_true_2 by done.
  eexists. split; [done|]. intros r. by apply cell_in_mono.
Qed.

Lemma brand_plan_narrows c1 c2 cols k2 :
  selected_brand c1 = "All" \/ selected_brand c1 = selected_brand c2 ->
  brand_plan c2 cols = Ok k2 ->
  exists k1, brand_plan c1 cols = Ok k1 /\ forall r, k2 r = true -> k1 r = true.
Proof.
  intros [H|H] H2; unfold brand_plan in *; rewrite H.
  - rewrite bool_decide_eq_true_2 by done. by exists everything.
  - by exists k2.
Qed.

Lemma model_plan_narrows c1 c2 cols k2 :
  model_search c1 = "" \/ model_search c1 = model_search c2 ->
  model_plan c2 cols = Ok k2 ->
  exists k1, model_plan c1 cols = Ok k1 /\ forall r, k2 r = true -> k1 r = true.
Proof.
  intros [H|H] H2; unfold model_plan in *; rewrite H.
  - rewrite bool_decide_eq_true_2 by done. by exists everything.
  - by exists k2.
Qed.

Lemma position_plan_narrows c1 c2 cols k2 :
  selected_position c1 = "All" \/ selected_position c1 = selected_position c2 ->
  position_plan c2 cols = Ok k2 ->
  exists k1, position_plan c1 cols = Ok k1 /\ forall r, k2 r = true -> k1 r = true.
Proof.
  intros [H|H] H2; unfold position_plan in *; rewrite H.
  - rewrite bool_decide_eq_true_2 by done. by exists everything.
  - by exists k2.
Qed.

Lemma free_text_plan_narrows c1 c2 cols k2 :
  free_search c1 = "" \/ free_search c1 = free_search c2 ->
  free_text_plan c2 cols = Ok k2 ->
  exists k1, free_text_plan c1 cols = Ok k1 /\ forall r, k2 r = true -> k1 r = true.
Proof.
  intros [H|H] H2; unfold free_text_plan in *; rewrite H.
  - rewrite bool_decide_eq_true_2 by done. by exists everything.
  - by exists k2.
Qed.

Lemma pipeline_plan_narrows c1 c2 cols k2 :
  narrows c2 c1 ->
  pipeline_plan c2 cols = Ok k2 ->
  exists k1, pipeline_plan c1 cols = Ok k1 /\ forall r, k2 r = true -> k1 r = true.
Proof.
  intros (Hc & Hb & Hm & Hp & Hf) H2. unfold pipeline_plan in *.
  apply bind_Ok_inv in H2 as (a2 & Ha & H2).
  apply bind_Ok_inv in H2 as (b2 & Hb2 & H2).
  apply bind_Ok_inv in H2 as (m2 & Hm2 & H2).
  apply bind_Ok_inv in H2 as (p2 & Hp2 & H2).
  apply bind_Ok_inv in H2 as (f2 & Hf2 & [= <-]).
  destruct (compound_plan_narrows c1 c2 cols a2 Hc Ha) as (a1 & -> & Ha1).
  destruct (brand_plan_narrows c1 c2 cols b2 Hb Hb2) as (b1 & -> & Hb1).
  destruct (model_plan_narrows c1 c2 cols m2 Hm Hm2) as (m1 & -> & Hm1).
  destruct (position_plan_narrows c1 c2 cols p2 Hp Hp2) as (p1 & -> & Hp1).
  destruct (free_text_plan_narrows c1 c2 cols f2 Hf Hf2) as (f1 & -> & Hf1).
  simpl. eexists. split; [done|]. intros r.
  rewrite !andb_true_iff. intros ((((?&?)&?)&?)&?). auto 10.
Qed.

(** X10: restricting more never finds more.  When criteria [c2] switch
    stages on that [c1] leaves off, or allow fewer compounds, and otherwise
    ask the same, and the patterns in use under [c2] compile, then whenever
    the run under [c2] returns, the run under [c1] returns too and the rows
    found under [c2] are a subsequence of those found under [c1]. *)
Theorem X10_narrowing (df : DataFrame) (c1 c2 : FilterCriteria) (out2 : DataFrame) :
  narrows c2 c1 ->
  (forall pat, pat ∈ patterns c2 -> returns (re_compile pat)) ->
  apply_filters df c2 = Ok out2 ->
  exists out1,
    apply_filters df c1 = Ok out1 /\ sublist (rows out2) (rows out1).
Proof.
  intros Hn _ (k2 & Hk2 & ->)%apply_filters_Ok_select.
  destruct (pipeline_plan_narrows c1 c2 (columns df) k2 Hn Hk2) as (k1 & Hk1 & Hle).
  exists (select df k1). split; [|by apply select_mono].
  apply apply_filters_Ok. eauto.
Qed.

Lemma X10_narrowing_witness :
  exists out1,
    apply_filters sample_df (only_compounds ["Rubber"; "Silicone"]) = Ok out1 /\
    sublist [policar_917] (rows out1).
Proof.
  apply (X10_narrowing sample_df (only_compounds ["Rubber"; "Silicone"])
           (mkCriteria ["Rubber"] "All" "917" "All" "") (frame_of [policar_917])).
  - unfold narrows. simpl. split; [right; split; [compute_done|]|].
    + intros v Hv. apply list_elem_of_singleton in Hv as ->. compute_done.
    + repeat split; by left.
  - intros pat Hpat. change (pat ∈ ["917"]) in Hpat.
    apply list_elem_of_singleton in Hpat as ->. eexists. vm_compute. reflexivity.
  - by vm_compute.
Defined.

(** ** Missing values never match *)

Lemma cell_in_Some values cell : cell_in values cell = true -> is_Some cell.
Proof. destruct cell; [by eexists|done]. Qed.

Lemma cell_search_Some rx cell : cell_search rx cell = true -> is_Some cell.
Proof. destruct cell; [by eexists|done]. Qed.

(** X12: a stage that is switched on never keeps a row whose cell in the
    column it reads is missing, whatever the selection or the pattern: the
    rows it returns hold a text there (for the free-text stage, in Notes or
    in Tire_Part). *)
Theorem X12_missing_values_never_match (df out : DataFrame) (c : FilterCriteria) :
  ("All" ∉ selected_compounds c -> compound_stage c df = Ok out ->
     forall r : Row, r ∈ rows out -> is_Some (r !! "Compound")) /\
  (selected_brand c <> "All" -> brand_stage c df = Ok out ->
     forall r : Row, r ∈ rows out -> is_Some (r !! "Brand")) /\
  (model_search c <> "" -> model_stage c df = Ok out ->
     forall r : Row, r ∈ rows out -> is_Some (r !! "Model")) /\
  (selected_position c <> "All" -> position_stage c df = Ok out ->
     forall r : Row, r ∈ rows out -> is_Some (r !! "Position")) /\
  (free_search c <> "" -> free_text_stage c df = Ok out ->
     forall r : Row, r ∈ rows out ->
       is_Some (r !! "Notes") \/ is_Some (r !! "Tire_Part")).
Proof.
  split; [|split; [|split; [|split]]].
  - intros Ha (k & Hk & ->)%compound_stage_Ok r Hr. unfold compound_plan in Hk.
    rewrite bool_decide_eq_false_2 in Hk by done.
    apply column_plan_Ok in Hk as [_ ->].
    apply select_rows in Hr as [_ Hr]. by apply cell_in_Some in Hr.
  - intros Ha (k & Hk & ->)%brand_stage_Ok r Hr. unfold brand_plan in Hk.
    rewrite bool_decide_eq_false_2 in Hk by done.
    apply column_plan_Ok in Hk as [_ ->].
    apply select_rows in Hr as [_ Hr]. apply cell_eq_true in Hr. by eexists.
  - intros Ha (k & Hk & ->)%model_stage_Ok r Hr. unfold model_plan in Hk.
    rewrite bool_decide_eq_false_2 in Hk by done.
    apply contains_plan_Ok in Hk as (_ & rx & _ & ->).
    apply select_rows in Hr as [_ Hr]. by apply cell_search_Some in Hr.
  - intros Ha (k & Hk & ->)%position_stage_Ok r Hr. unfold position_plan in Hk.
    rewrite bool_decide_eq_false_2 in Hk by done.
    apply contains_plan_Ok in Hk as (_ & rx & _ & ->).
    apply select_rows in Hr as [_ Hr]. by apply cell_search_Some in Hr.
  - intros Ha (k & Hk & ->)%free_text_stage_Ok r Hr. unfold free_text_plan in Hk.
    rewrite bool_decide_eq_false_2 in Hk by done.
    apply bind_Ok_inv in Hk as (k1 & (_ & rx1 & _ & ->)%contains_plan_Ok & Hk).
    apply bind_Ok_inv in Hk as (k2 & (_ & rx2 & _ & ->)%contains_plan_Ok & [= <-]).
    apply select_rows in Hr as [_ Hr]. apply orb_true_iff in Hr as [Hr|Hr];
      [left|right]; by apply cell_search_Some in Hr.
Qed.

Lemma X12_missing_values_never_match_witness :
  is_Some (policar_917 !! "Compound").
Proof.
  apply (proj1 (X12_missing_values_never_match raw_df
                  (frame_of [delete "Notes" nsr_m4; policar_917])
                  (only_compounds ["Rubber"; "Silicone"; ""])));
    [compute_done|by vm_compute|].
  simpl. apply elem_of_cons. right. apply elem_of_cons. by left.
Defined.

(** ** The order of the stages *)

Lemma bind_Ok_r {A} (m : outcome A) : (try! a := m in Ok a) = m.
Proof. by destruct m. Qed.

Lemma apply_filters_run df c : apply_filters df c = run_stages (stages c) df.
Proof.
  unfold apply_filters, stages. simpl.
  apply bind_ext. intros d1 _. apply bind_ext. intros d2 _.
  apply bind_ext. intros d3 _. apply bind_ext. intros d4 _.
  by rewrite bind_Ok_r.
Qed.

Lemma stages_planned c s : s ∈ stages c -> planned s.
Proof.
  unfold stages. intros H.
  repeat (apply elem_of_cons in H as [->|H]).
  - exists (compound_plan c). apply compound_stage_Ok.
  - exists (brand_plan c). apply brand_stage_Ok.
  - exists (model_plan c). apply model_stage_Ok.
  - exists (position_plan c). apply position_stage_Ok.
  - exists (free_text_plan c). apply free_text_stage_Ok.
  - by apply elem_of_nil in H.
Qed.

Lemma run_stages_tests ss : forall df out,
  (forall s, s ∈ ss -> planned s) ->
  run_stages ss df = Ok out ->
  exists ks, Forall2 (selects_with (columns df)) ss ks.
Proof.
  induction ss as [|s ss IH]; intros df out Hp H; simpl in H.
  - exists []. constructor.
  - apply bind_Ok_inv in H as (d & Hs & H).
    destruct (Hp s) as [plan Hplan]; [by left|].
    apply Hplan in Hs as (k & Hk & ->).
    destruct (IH (select df k) out) as (ks & Hks); [|done|].
    { intros s' Hs'. apply Hp. by right. }
    exists (k :: ks). constructor; [|done].
    intros df' Hcols. apply Hplan. exists k. by rewrite Hcols.
Qed.

Lemma run_stages_selects cols ss ks :
  Forall2 (selects_with cols) ss ks ->
  forall df, columns df = cols ->
  run_stages ss df = Ok (select df (all_tests ks)).
Proof.
  induction 1 as [|s k ss ks Hs _ IH]; intros df Hcols; simpl.
  - by rewrite select_everything.
  - rewrite (Hs df Hcols). simpl. rewrite IH by done.
    by rewrite select_select.
Qed.

Lemma Forall2_permuted {A B} (P : A -> B -> Prop) (l l' : list A) :
  Permutation l l' ->
  forall k, Forall2 P l k -> exists k', Permutation k k' /\ Forall2 P l' k'.
Proof.
  induction 1 as [|x l l' _ IH|x y l|l1 l2 l3 _ IH1 _ IH2]; intros k Hk.
  - exists k. by split.
  - inversion Hk as [|? y ? k0 Hxy Hrest]; subst.
    destruct (IH k0 Hrest) as (k' & Hp & Hf).
    exists (y :: k'). split; [by constructor|by constructor].
  - inversion Hk as [|? b ? k0 Hyb Hrest]; subst.
    inversion Hrest as [|? a ? k1 Hxa Hrest']; subst.
    exists (a :: b :: k1). split; [constructor|by repeat constructor].
  - destruct (IH1 k Hk) as (k2 & Hp2 & Hf2).
    destruct (IH2 k2 Hf2) as (k3 & Hp3 & Hf3).
    exists k3. split; [by etransitivity|done].
Qed.

Lemma all_tests_permuted ks ks' r :
  Permutation ks ks' -> all_tests ks r = all_tests ks' r.
Proof.
  unfold all_tests.
  induction 1 as [|k l l' _ IH|k1 k2 l|l1 l2 l3 _ IH1 _ IH2]; simpl.
  - done.
  - by rewrite IH.
  - by destruct (k1 r), (k2 r).
  - congruence.
Qed.

Lemma run_stages_permuted ss ss' df out :
  Permutation ss ss' ->
  (forall s, s ∈ ss -> planned s) ->
  run_stages ss df = Ok out -> run_stages ss' df = Ok out.
Proof.
  intros Hperm Hp H.
  destruct (run_stages_tests ss df out Hp H) as (ks & Hks).
  rewrite (run_stages_selects _ _ _ Hks df eq_refl) in H. injection H as <-.
  destruct (Forall2_permuted _ _ _ Hperm ks Hks) as (ks' & Hpk & Hks').
  rewrite (run_stages_selects _ _ _ Hks' df eq_refl). f_equal.
  apply select_ext. intros r. symmetry. by apply all_tests_permuted.
Qed.

(** X13: when the patterns in use compile, the order of the five stages does
    not matter to the result: run in any order, the stages return a frame
    exactly when the block as written returns it, and it is the same
    frame. *)
Theorem X13_stage_order (c : FilterCriteria) (ss : list stage) (df out : DataFrame) :
  Permutation ss (stages c) ->
  (forall pat, pat ∈ patterns c -> returns (re_compile pat)) ->
  (run_stages ss df = Ok out <-> apply_filters df c = Ok out).
Proof.
  intros Hperm _. rewrite apply_filters_run. split.
  - apply run_stages_permuted; [done|].
    intros s Hs. apply (stages_planned c). by rewrite <- Hperm.
  - apply run_stages_permuted; [by symmetry|]. apply stages_planned.
Qed.

Lemma X13_stage_order_witness :
  run_stages
    [free_text_stage (mkCriteria ["Rubber"] "All" "917" "rear" "fits");
     position_stage (mkCriteria ["Rubber"] "All" "917" "rear" "fits");
     model_stage (mkCriteria ["Rubber"] "All" "917" "rear" "fits");
     brand_stage (mkCriteria ["Rubber"] "All" "917" "rear" "fits");
     compound_stage (mkCriteria ["Rubber"] "All" "917" "rear" "fits")]
    sample_df = Ok (frame_of [policar_917]).
Proof.
  apply (X13_stage_order (mkCriteria ["Rubber"] "All" "917" "rear" "fits")).
  - symmetry. apply (Permutation_rev (stages _)).
  - intros pat Hpat. change (pat ∈ ["917"; "rear"; "fits"]) in Hpat.
    repeat (apply elem_of_cons in Hpat as [->|Hpat]);
      try (eexists; vm_compute; reflexivity).
    by apply elem_of_nil in Hpat.
  - by vm_compute.
Defined.

(** ** The results *)

Lemma find_absent_none (df : DataFrame) (labels : list string) :
  (forall label, label ∈ labels -> label ∈ columns df) ->
  List.find (fun label => negb (bool_decide (label ∈ columns df))) labels = None.
Proof.
  induction labels as [|l labels IH]; intros H; simpl; [done|].
  rewrite bool_decide_eq_true_2 by (apply H; by left). simpl.
  apply IH. intros label Hl. apply H. by right.
Qed.

Lemma shown_columns_present (df : DataFrame) label :
  label ∈ List.filter (fun col => bool_decide (col ∈ columns df)) display_cols ->
  label ∈ columns df.
Proof.
  rewrite list_elem_of_In, filter_In, bool_decide_eq_true. tauto.
Qed.

Lemma restrict_row_lookup (labels : list string) (r : Row) label :
  filter (fun kv : string * string => kv.1 ∈ labels) r !! label =
  if bool_decide (label ∈ labels) then r !! label else None.
Proof.
  apply option_eq. intros v. rewrite map_lookup_filter_Some. simpl.
  case_bool_decide; [tauto|]. split; [tauto|done].
Qed.

Lemma df_empty_true df : df_empty df = true <-> rows df = [] \/ columns df = [].
Proof.
  unfold df_empty. rewrite orb_true_iff, !Nat.eqb_eq.
  by rewrite !length_zero_iff_nil.
Qed.

Lemma filter_sublist_bool {A} (f : A -> bool) (l : list A) :
  sublist (List.filter f l) l.
Proof.
  induction l as [|a l IH]; simpl; [constructor|]. destruct (f a); by constructor.
Qed.

Lemma results_view_spec (df : DataFrame) :
  exists shown,
    results_view df = Ok (length (rows df), shown) /\
    (shown = Warning <-> rows df = [] \/ columns df = []) /\
    forall t, shown = Table t ->
      columns t = List.filter (fun col => bool_decide (col ∈ columns df)) display_cols /\
      sublist (columns t) display_cols /\
      (forall label, label ∈ columns t -> label ∈ columns df) /\
      Forall2 (fun r r' : Row =>
                 forall label,
                   r' !! label = if bool_decide (label ∈ columns t) then r !! label
                                 else None)
              (rows df) (rows t).
Proof.
  unfold results_view. destruct (df_empty df) eqn:E.
  - exists Warning. split; [done|]. split; [|done].
    split; [intros _; by apply df_empty_true|done].
  - unfold getitem_list. rewrite find_absent_none by apply shown_columns_present.
    simpl. eexists. split; [done|]. split.
    + split; [done|]. intros H%df_empty_true. congruence.
    + intros t [= <-]. simpl. split; [done|]. split; [|split].
      * exact (filter_sublist_bool (fun col => bool_decide (col ∈ columns df))
                 display_cols).
      * exact (shown_columns_present df).
      * induction (rows df) as [|r rs IH]; simpl; constructor; [|done].
        intros label. apply restrict_row_lookup.
Qed.

(** X14: showing the results never raises, whatever columns the table has:
    only the display columns that exist are asked for.  The count is the
    number of rows found; the warning is shown exactly when no row was found
    (or the table has no column); otherwise the table shown has the display
    columns that exist, in the display order, one row per row found, and in
    these columns the cells found. *)
Theorem X14_results_view (df : DataFrame) :
  exists shown,
    results_view df = Ok (length (rows df), shown) /\
    (shown = Warning <-> rows df = [] \/ columns df = []) /\
    forall t, shown = Table t ->
      columns t = List.filter (fun col => bool_decide (col ∈ columns df)) display_cols /\
      sublist (columns t) display_cols /\
      (forall label, label ∈ columns t -> label ∈ columns df) /\
      Forall2 (fun r r' : Row =>
                 forall label,
                   r' !! label = if bool_decide (label ∈ columns t) then r !! label
                                 else None)
              (rows df) (rows t).
Proof. apply results_view_spec. Qed.

(** X15: on the page the count of tires found never exceeds the total shown
    in the sidebar; when nothing is found the warning is shown, and when a
    table is shown it has as many rows as the count says. *)
Theorem X15_found_at_most_total (df : DataFrame) (w : Inputs) (side : Sidebar)
    (found : nat) (shown : Shown) :
  page df w = Ok (side, (found, shown)) ->
  found <= total_tires side /\
  (found = 0 -> shown = Warning) /\
  (forall t, shown = Table t -> length (rows t) = found).
Proof.
  unfold page. intros H.
  apply bind_Ok_inv in H as (side' & Hside & H).
  apply bind_Ok_inv in H as (out & Hout & H).
  apply bind_Ok_inv in H as (view & Hview & [= -> ->]).
  apply sidebar_total in Hside.
  apply apply_filters_Ok_select in Hout as (keep & _ & ->).
  destruct (results_view_spec (select df keep)) as (shown' & Hv & Hw & Ht).
  rewrite Hv in Hview. injection Hview as <- <-.
  split; [|split].
  - rewrite Hside. apply sublist_length, select_sublist.
  - intros H0. apply Hw. left. by apply length_zero_iff_nil.
  - intros t Hs. destruct (Ht t Hs) as (_ & _ & _ & Hf).
    symmetry. by apply Forall2_length in Hf.
Qed.

Lemma X15_found_at_most_total_witness :
  1 <= total_tires
         (mkSidebar ["All"; "Rubber"; "Silicone"; "Urethane"]
                    ["All"; "Bobkat"; "Carrera"; "NSR"; "Policar"]
                    ["All"; "Front"; "Front/Rear"; "Rear"; "Rear (wide)"] 4).
Proof.
  apply (X15_found_at_most_total sample_df
           (mkInputs ["All"] "Policar" " 917 " "All" "")
           _ 1 (Table (mkDataFrame display_cols [policar_917]))).
  by vm_compute.
Defined.

(** ** The page as a whole *)

Lemma reads_among c label :
  label ∈ reads c ->
  label ∈ ["Compound"; "Brand"; "Model"; "Position"; "Notes"; "Tire_Part"].
Proof.
  unfold reads. rewrite !elem_of_app.
  repeat case_bool_decide; rewrite ?elem_of_nil, ?elem_of_cons; tauto.
Qed.

Lemma patterns_among c pat :
  pat ∈ patterns c ->
  pat = model_search c \/ pat = selected_position c \/ pat = free_search c.
Proof.
  unfold patterns. rewrite !elem_of_app.
  repeat case_bool_decide; rewrite ?elem_of_nil, ?elem_of_cons, ?elem_of_nil; tauto.
Qed.

Lemma plain_app a b : plain (a ++ b) = plain a && plain b.
Proof. apply forallb_app. Qed.

Lemma plain_text_strip s : plain_text s -> plain_text (py_strip s).
Proof.
  unfold plain_text. rewrite chars_py_strip.
  destruct (strip_margins (list_ascii_of_string s)) as (a & b & Hs & _).
  rewrite Hs at 1. rewrite !plain_app, !andb_true_iff. tauto.
Qed.

(** X16: when the table has the six columns that the sidebar and the
    filters read, and neither the two texts typed nor the position picked
    contains a special character of [re], the page runs from the sidebar to
    the results without raising, whatever compounds and brand are picked. *)
Theorem X16_page_returns (df : DataFrame) (w : Inputs) :
  (forall label,
     label ∈ ["Compound"; "Brand"; "Model"; "Position"; "Notes"; "Tire_Part"] ->
     label ∈ columns df) ->
  plain_text (typed_model w) ->
  plain_text (picked_position w) ->
  plain_text (typed_free_text w) ->
  returns (page df w).
Proof.
  intros Hcols Hm Hp Hf. unfold page.
  assert (returns (sidebar df)) as [side ->].
  { unfold sidebar. rewrite !options_present by (apply Hcols; set_solver).
    by eexists. }
  simpl.
  destruct (apply_filters_returns df (read_sidebar w)) as [out ->].
  { intros label Hl. by apply Hcols, (reads_among (read_sidebar w)). }
  { intros pat [-> | [-> | ->]]%patterns_among; apply plain_text_compiles; simpl;
      [by apply plain_text_strip|done|by apply plain_text_strip]. }
  simpl. destruct (results_view_spec out) as (shown & -> & _). by eexists.
Qed.

Lemma X16_page_returns_witness :
  returns (page sample_df (mkInputs ["Rubber"; "Urethane"] "All" " m14" "Rear" "")).
Proof.
  apply X16_page_returns; try (by vm_compute).
  intros label H.
  repeat (apply elem_of_cons in H as [->|H]); try compute_done.
  by apply elem_of_nil in H.
Defined.

(** ** Picking a position *)

Lemma apply_filters_only_position df p :
  apply_filters df (only_position p) = position_stage (only_position p) df.
Proof.
  unfold apply_filters. change (compound_stage (only_position p) df) with (Ok df).
  change (bind (Ok df) ?k) with (k df). cbn beta.
  change (brand_stage (only_position p) df) with (Ok df).
  change (bind (Ok df) ?k) with (k df). cbn beta.
  change (model_stage (only_position p) df) with (Ok df).
  change (bind (Ok df) ?k) with (k df). cbn beta.
  by destruct (position_stage (only_position p) df).
Qed.

Lemma icontains_self p : icontains p p = true.
Proof. apply icontains_slices. exists [], p, []. by rewrite app_nil_r. Qed.

Lemma icontains_nil s : icontains [] s = true.
Proof. by destruct s. Qed.

(** X17: picking a position that the sidebar offers and that has no special
    character of [re], with the other controls left alone, finds at least one
    tire: every tire whose Position contains the text picked, whatever the
    case, and no other. *)
Theorem X17_offered_position_finds_rows (df : DataFrame) (opts : list string)
    (p : string) :
  options df "Position" = Ok opts -> p ∈ opts -> p <> "All" -> plain_text p ->
  exists out,
    apply_filters df (only_position p) = Ok out /\
    rows out <> [] /\
    forall r : Row,
      r ∈ rows out <-> r ∈ rows df /\ cell_contains_spec p (r !! "Position").
Proof.
  intros Ho Hp Hne Hplain. pose proof (options_Ok_present _ _ _ Ho) as Hcol.
  rewrite options_present in Ho by done. injection Ho as <-.
  apply elem_of_cons in Hp as [->|Hp]; [done|].
  apply elem_of_offered in Hp as (r0 & Hr0 & Hv0).
  eexists. split; [|split].
  - rewrite apply_filters_only_position. by apply position_stage_plain.
  - intros Hnil.
    assert (r0 ∈ rows (select df (fun r : Row => cell_icontains p (r !! "Position"))))
      as Hin.
    { apply select_rows. split; [done|]. rewrite Hv0. apply icontains_self. }
    simpl in Hnil, Hin. rewrite Hnil in Hin. by apply elem_of_nil in Hin.
  - intros r. by rewrite select_rows, cell_icontains_correct.
Qed.

Lemma X17_offered_position_finds_rows_witness :
  exists out, apply_filters sample_df (only_position "Rear") = Ok out /\ rows out <> [].
Proof.
  destruct (X17_offered_position_finds_rows sample_df
              ["All"; "Front"; "Front/Rear"; "Rear"; "Rear (wide)"] "Rear")
    as (out & H & Hne & _); [by vm_compute|compute_done|done|by vm_compute|].
  by exists out.
Defined.

(** X18: the empty text, which the position box offers when some Position
    cell is empty, does not select the tires without a position: as a
    pattern it is found in every text, so the stage keeps every row whose
    Position is not missing, and all of a table without missing values. *)
Theorem X18_empty_position_keeps_all (df : DataFrame) (c : FilterCriteria) :
  selected_position c = "" -> "Position" ∈ columns df ->
  position_stage c df = Ok (select df (fun r : Row => bool_decide (is_Some (r !! "Position")))) /\
  ((forall r : Row, r ∈ rows df -> is_Some (r !! "Position")) ->
   position_stage c df = Ok df).
Proof.
  intros He Hcol.
  assert (position_stage c df =
          Ok (select df (fun r : Row => bool_decide (is_Some (r !! "Position"))))) as H.
  { rewrite position_stage_plain by (by rewrite ?He). f_equal.
    apply select_ext. intros r. rewrite He.
    destruct (r !! "Position") as [v|]; simpl; [|done].
    unfold text_icontains. simpl. by rewrite icontains_nil. }
  split; [done|]. intros Hfull. rewrite H. f_equal. apply select_all.
  intros r Hr. by apply bool_decide_eq_true_2, Hfull.
Qed.

Lemma X18_empty_position_keeps_all_witness :
  position_stage (only_position "") sample_df = Ok sample_df.
Proof.
  apply (X18_empty_position_keeps_all sample_df (only_position ""));
    [done|compute_done|].
  intros r Hr. unfold sample_df in Hr. simpl in Hr.
  repeat (apply elem_of_cons in Hr as [->|Hr]);
    try (eexists; vm_compute; reflexivity).
  by apply elem_of_nil in Hr.
Defined.

Lemma X14_results_view_witness :
  exists shown,
    results_view df_without_model = Ok (2, shown) /\ shown <> Warning.
Proof.
  destruct (X14_results_view df_without_model) as (shown & H & Hw & _).
  exists shown. split; [exact H|].
  intros Hs. apply Hw in Hs as [Hs|Hs]; discriminate Hs.
Defined.
